(** * Announcement router: date-window filter, input validation, store effects

    A shallow embedding of [src/backend/routers/announcements.py].

    Layout:
    - [date], [datetime]: the calendar values of Python's [datetime] module
      that the router manipulates ([.date()], [.isoformat()], comparison);
    - [value], [doc]: the documents of the store, as Python dicts;
    - [DatetimeLib], [BsonLib]: the two library parsers the router calls
      ([datetime.fromisoformat], [ObjectId(...)]), as interfaces;
    - collection operations ([find_one], [insert_one], [update_one],
      [delete_one], sorted [find]) on a list of documents;
    - the five endpoints, in a state-and-exception monad over the database;
    - the properties of the endpoints. *)

From Stdlib Require Import Ascii Sorted Permutation.
From stdpp Require Import base option list gmap strings pretty sorting.

Set Default Proof Using "Type".

(** ** Calendar dates *)

(** [s.zfill(w)] on a string of digits: pad with ['0'] on the left up to
    width [w], as the [%04d] and [%02d] conversions of [isoformat] do. *)
Fixpoint zeros (n : nat) : string :=
  match n with
  | O => ""
  | S n => "0" +:+ zeros n
  end.

Definition zfill (w : nat) (s : string) : string :=
  zeros (w - String.length s) +:+ s.

Module date.
(** A [datetime.date]: a (year, month, day) triple. *)
Record t := Date { year : nat; month : nat; day : nat }.

Global Instance eq_dec : EqDecision t.
Proof. solve_decision. Defined.

(** Python orders dates as the tuples (year, month, day). *)
Definition lt (a b : t) : Prop :=
  year a < year b ∨
  (year a = year b ∧
     (month a < month b ∨ (month a = month b ∧ day a < day b))).

Definition le (a b : t) : Prop := lt a b ∨ a = b.

Global Instance lt_dec : RelDecision lt.
Proof. intros a b. unfold lt. apply _. Defined.

Global Instance le_dec : RelDecision le.
Proof. intros a b. unfold le. apply _. Defined.

(** [date.isoformat()]: ["%04d-%02d-%02d"]. *)
Definition isoformat (d : t) : string :=
  zfill 4 (pretty (year d)) +:+ "-" +:+
  zfill 2 (pretty (month d)) +:+ "-" +:+
  zfill 2 (pretty (day d)).
End date.

Module datetime.
(** A naive [datetime.datetime]: a date and a time of day. *)
Record t := Datetime {
  date : date.t;
  hour : nat;
  minute : nat;
  second : nat;
  microsecond : nat
}.

(** [datetime.isoformat()] with the default separator ['T']; the
    fraction is printed only when the microseconds are not zero. *)
Definition isoformat (x : t) : string :=
  date.isoformat (date x) +:+ "T" +:+
  zfill 2 (pretty (hour x)) +:+ ":" +:+
  zfill 2 (pretty (minute x)) +:+ ":" +:+
  zfill 2 (pretty (second x)) +:+
  (if decide (microsecond x = 0) then ""
   else "." +:+ zfill 6 (pretty (microsecond x))).

(** Midnight of a day, what parsing a date-only string yields. *)
Definition midnight (d : date.t) : t := Datetime d 0 0 0 0.
End datetime.


(** ** Documents *)

(** A [bson.ObjectId]: its binary content, a byte string. *)
Record object_id := Oid { binary : string }.

Global Instance object_id_eq_dec : EqDecision object_id.
Proof. solve_decision. Defined.

(** The values this service reads from and writes to a document: [None],
    a [str], or the [ObjectId] under ["_id"]. *)
Inductive value :=
  | VNone
  | VStr (s : string)
  | VObjectId (o : object_id).

Global Instance value_eq_dec : EqDecision value.
Proof. solve_decision. Defined.

(** A document of a collection, as the Python dict the driver returns. *)
Abbreviation doc := (gmap string value).

(** [binascii.hexlify]: two lowercase hexadecimal digits per byte. *)
Definition hex_digit (n : N) : Ascii.ascii :=
  match n with
  | 0 => "0" | 1 => "1" | 2 => "2" | 3 => "3" | 4 => "4" | 5 => "5"
  | 6 => "6" | 7 => "7" | 8 => "8" | 9 => "9" | 10 => "a" | 11 => "b"
  | 12 => "c" | 13 => "d" | 14 => "e" | _ => "f"
  end%N%char.

Fixpoint hexlify (s : string) : string :=
  match s with
  | EmptyString => EmptyString
  | String c s' =>
      let n := Ascii.N_of_ascii c in
      String (hex_digit (n / 16)) (String (hex_digit (n mod 16)) (hexlify s'))
  end.

(** [str(v)] *)
Definition py_str (v : value) : string :=
  match v with
  | VNone => "None"
  | VStr s => s
  | VObjectId o => hexlify (binary o)
  end.

(** Truth value of [v] in a condition: [None] and [""] are false. *)
Definition truthy (v : value) : bool :=
  match v with
  | VNone => false
  | VStr s => negb (String.eqb s "")
  | VObjectId _ => true
  end.

(** [d.get(k)]: [None] when the key is missing. *)
Definition get (d : doc) (k : string) : value := default VNone (d !! k).

(** An [Optional[str]] argument as a value. *)
Definition of_optional (o : option string) : value :=
  match o with
  | None => VNone
  | Some s => VStr s
  end.

(** ** Library parsers *)

(** [datetime.fromisoformat(s)]: [None] stands for the [ValueError] it
    raises. Which strings it takes depends on the Python version (a date
    [YYYY-MM-DD], optionally followed by a time, in every version); no
    version takes the empty string. *)
Class DatetimeLib := {
  fromisoformat : string → option datetime.t;
  fromisoformat_empty : fromisoformat "" = None
}.

(** [ObjectId(s)] on a string: [None] stands for the [InvalidId] it
    raises. *)
Class BsonLib := {
  ObjectId : string → option object_id
}.

(** [datetime.fromisoformat(v).date()] inside [try ... except Exception]:
    a value that is not a [str] raises [TypeError], caught the same way. *)
Definition parse_date `{DatetimeLib} (v : value) : option date.t :=
  match v with
  | VStr s => datetime.date <$> fromisoformat s
  | _ => None
  end.

(** ** Ordering of values *)

(** The store's order on the values of a sort key, ascending: a missing
    field counts as null, null sorts before every string, strings compare
    byte by byte, and object ids sort after strings, by their bytes. *)
Definition bson_le (a b : value) : Prop :=
  match a, b with
  | VNone, _ => True
  | VStr _, VNone => False
  | VStr s, VStr t => String.le s t
  | VStr _, VObjectId _ => True
  | VObjectId o, VObjectId p => String.le (binary o) (binary p)
  | VObjectId _, _ => False
  end.

Global Instance bson_le_dec : RelDecision bson_le.
Proof. intros [|s|o] [|t|p]; simpl; apply _. Defined.

(** Python's [a < b] on two values: defined between two strings, where it
    is the order of the code points; [None] stands for the [TypeError] of
    an unsupported comparison. Object ids compare by their bytes. *)
Definition py_lt (a b : value) : option bool :=
  match a, b with
  | VStr s, VStr t => Some (String.ltb s t)
  | VObjectId o, VObjectId p => Some (String.ltb (binary o) (binary p))
  | _, _ => None
  end.

(** ** Sorting *)

Section sorting.
Context {A : Type}.

(** Stable insertion: [x], which came before the elements of [l], goes in
    front of the first element that it does not exceed. *)
Fixpoint insert_le (R : relation A) `{!RelDecision R} (x : A) (l : list A) : list A :=
  match l with
  | [] => [x]
  | y :: l' => if decide (R x y) then x :: l else y :: insert_le R x l'
  end.

(** A stable sort: the result of the store's [sort] on a cursor. *)
Definition stable_sort (R : relation A) `{!RelDecision R} (l : list A) : list A :=
  foldr (insert_le R) [] l.

(** The same insertion with Python's [<] on the keys, which may raise:
    [x] passes every [y] with [key y < key x]. *)
Fixpoint insert_key (key : A → value) (x : A) (l : list A) : option (list A) :=
  match l with
  | [] => Some [x]
  | y :: l' =>
      b ← py_lt (key y) (key x);
      if b : bool then (y ::.) <$> insert_key key x l' else Some (x :: l)
  end.

(** [l.sort(key=key)]: stable; [None] stands for the [TypeError] of a
    comparison between keys that do not compare. *)
Fixpoint list_sort (key : A → value) (l : list A) : option (list A) :=
  match l with
  | [] => Some []
  | x :: l' => s ← list_sort key l'; insert_key key x s
  end.
End sorting.

(** ** Collections of the store *)

(** The filter [{"_id": v}]. *)
Definition has_id (v : value) (d : doc) : bool :=
  bool_decide (d !! "_id" = Some v).

(** [c.find_one({"_id": v})]: the first match, if any. *)
Definition find_one (c : list doc) (v : value) : option doc :=
  List.find (has_id v) c.

(** The order of two documents on field [k]. *)
Definition field_le (k : string) (a b : doc) : Prop :=
  bson_le (get a k) (get b k).

Global Instance field_le_dec k : RelDecision (field_le k).
Proof. intros a b. unfold field_le. apply _. Defined.

(** [c.find().sort([(k, 1)])]: ascending on field [k]. *)
Definition find_sorted (c : list doc) (k : string) : list doc :=
  stable_sort (field_le k) c.

(** [c.update_one({"_id": v}, {"$set": upd})]: the fields of [upd]
    overwrite those of the first match; returns the collection and
    [matched_count]. *)
Fixpoint update_one (c : list doc) (v : value) (upd : doc) : list doc * nat :=
  match c with
  | [] => ([], 0)
  | d :: c' =>
      if has_id v d then ((upd ∪ d) :: c', 1)
      else let '(c'', n) := update_one c' v upd in (d :: c'', n)
  end.

(** [c.delete_one({"_id": v})]: removes the first match; returns the
    collection and [deleted_count]. *)
Fixpoint delete_one (c : list doc) (v : value) : list doc * nat :=
  match c with
  | [] => ([], 0)
  | d :: c' =>
      if has_id v d then (c', 1)
      else let '(c'', n) := delete_one c' v in (d :: c'', n)
  end.

(** ** Exceptions, database state and the monad of the endpoints *)

Inductive exn :=
  | HTTPException (status_code : nat) (detail : string)
  | DuplicateKeyError
  | TypeError.

Inductive outcome (A : Type) :=
  | Return (a : A)
  | Raise (e : exn).
Arguments Return {A} a.
Arguments Raise {A} e.

Global Instance exn_eq_dec : EqDecision exn.
Proof. solve_decision. Defined.

Global Instance outcome_eq_dec {A : Type} `{EqDecision A} : EqDecision (outcome A).
Proof. solve_decision. Defined.

(** The two collections imported from the database module. *)
Record db := Db {
  announcements_collection : list doc;
  teachers_collection : list doc
}.

(** A computation reads and writes the database and returns or raises. *)
Definition M (A : Type) : Type := db → outcome A * db.

Global Instance M_ret : MRet M := λ A a st, (Return a, st).

Global Instance M_bind : MBind M := λ A B f m st,
  match m st with
  | (Return a, st') => f a st'
  | (Raise e, st') => (Raise e, st')
  end.

Definition raise {A : Type} (e : exn) : M A := λ st, (Raise e, st).

Definition gets {A : Type} (f : db → A) : M A := λ st, (Return (f st), st).

Definition put_announcements (c : list doc) : M unit := λ st,
  (Return tt, Db c (teachers_collection st)).

(** [try: x = f(...) except Exception: raise e] around a library call. *)
Definition try_except {A : Type} (o : option A) (e : exn) : M A :=
  match o with
  | Some a => mret a
  | None => raise e
  end.

(** [c.insert_one(d)] on the announcements: the driver adds a generated
    ["_id"] to the caller's dict when it has none ([new_id] is the
    generated identifier), the store refuses a duplicate ["_id"]; returns
    the dict as the caller now sees it, and [inserted_id]. *)
Definition insert_one (d : doc) (new_id : object_id) : M (doc * value) :=
  let d' := if decide (is_Some (d !! "_id")) then d
            else <["_id" := VObjectId new_id]> d in
  let inserted_id := get d' "_id" in
  c ← gets announcements_collection;
  if decide (is_Some (find_one c inserted_id)) then raise DuplicateKeyError
  else _ ← put_announcements (c ++ [d']); mret (d', inserted_id).

(** The errors of the specification, by status code. *)
Definition Unauthorized (e : exn) : Prop := ∃ detail, e = HTTPException 401 detail.
Definition InvalidInput (e : exn) : Prop := ∃ detail, e = HTTPException 400 detail.
Definition NotFound (e : exn) : Prop := ∃ detail, e = HTTPException 404 detail.

(** ** The endpoints *)

Section router.
Context `{DatetimeLib} `{BsonLib}.

(** [_to_dict(doc)]: the document without ["_id"], with ["id"] set to
    [str(doc.get("_id"))]; an empty document gives the empty dict. *)
Definition _to_dict (d : doc) : doc :=
  if decide (d = ∅) then ∅
  else <["id" := VStr (py_str (get d "_id"))]> (delete "_id" d).

(** [GET /announcements] *)
Definition list_announcements : M (list doc) :=
  c ← gets announcements_collection;
  mret (_to_dict <$> find_sorted c "expiration_date").

(** One round of the loop of [active_announcements] over document [a],
    with [out] the list built so far; each [continue] returns [out]. *)
Definition active_step (now : date.t) (out : list doc) (a : doc) : list doc :=
  let exp := get a "expiration_date" in
  if negb (truthy exp) then out
  else
    match parse_date exp with
    | None => out
    | Some exp_date =>
        let start := get a "start_date" in
        let start_date := if truthy start then parse_date start else None in
        if match start_date with
           | Some sd => bool_decide (date.lt now sd)
           | None => false
           end
        then out
        else if bool_decide (date.le now exp_date) then out ++ [_to_dict a]
        else out
    end.

(** The key of the final sort: [x.get("expiration_date", "")]. *)
Definition sort_key (x : doc) : value :=
  default (VStr "") (x !! "expiration_date").

(** [GET /announcements/active]; [utcnow] is the reading of the clock. *)
Definition active_announcements (utcnow : datetime.t) : M (list doc) :=
  let now := datetime.date utcnow in
  c ← gets announcements_collection;
  let out := foldl (active_step now) [] c in
  try_except (list_sort sort_key out) TypeError.

Definition _require_teacher (username : option string) : M doc :=
  if negb (truthy (of_optional username))
  then raise (HTTPException 401 "Authentication required for this action")
  else
    c ← gets teachers_collection;
    match find_one c (of_optional username) with
    | None => raise (HTTPException 401 "Invalid teacher credentials")
    | Some teacher =>
        if decide (teacher = ∅)
        then raise (HTTPException 401 "Invalid teacher credentials")
        else mret teacher
    end.

(** [POST /announcements]; [utcnow] is the reading of the clock and
    [new_id] the identifier that the driver generates for the insert. *)
Definition create_announcement (utcnow : datetime.t) (new_id : object_id)
    (message expiration_date : string)
    (teacher_username start_date : option string) : M doc :=
  _ ← _require_teacher teacher_username;
  exp_date ← try_except (datetime.date <$> fromisoformat expiration_date)
    (HTTPException 400 "Invalid expiration_date format. Use YYYY-MM-DD");
  _ ← (if truthy (of_optional start_date) then
         start_d ← try_except (parse_date (of_optional start_date))
           (HTTPException 400 "Invalid start_date format. Use YYYY-MM-DD");
         if bool_decide (date.lt exp_date start_d)
         then raise (HTTPException 400 "start_date cannot be after expiration_date")
         else mret tt
       else mret tt);
  let doc : doc :=
    <["created_by" :=
        if truthy (of_optional teacher_username)
        then of_optional teacher_username else VStr "unknown"]>
    (<["created_at" := VStr (datetime.isoformat utcnow)]>
    (<["expiration_date" := VStr (date.isoformat exp_date)]>
    (<["start_date" := of_optional start_date]>
    (<["message" := VStr message]> ∅)))) in
  '(doc, inserted_id) ← insert_one doc new_id;
  mret (<["id" := VStr (py_str inserted_id)]> doc).

(** [PUT /announcements/{ann_id}] *)
Definition update_announcement (ann_id : string)
    (message expiration_date teacher_username start_date : option string)
    : M doc :=
  _ ← _require_teacher teacher_username;
  oid ← try_except (ObjectId ann_id)
    (HTTPException 400 "Invalid announcement id");
  let update : doc := ∅ in
  let update :=
    match message with
    | Some m => <["message" := VStr m]> update
    | None => update
    end in
  update ←
    match expiration_date with
    | Some e =>
        exp_date ← try_except (datetime.date <$> fromisoformat e)
          (HTTPException 400 "Invalid expiration_date format. Use YYYY-MM-DD");
        mret (<["expiration_date" := VStr (date.isoformat exp_date)]> update)
    | None => mret update
    end;
  update ←
    match start_date with
    | Some s =>
        _ ← try_except (datetime.date <$> fromisoformat s)
          (HTTPException 400 "Invalid start_date format. Use YYYY-MM-DD");
        mret (<["start_date" := VStr s]> update)
    | None => mret update
    end;
  if decide (update = ∅)
  then raise (HTTPException 400 "No fields to update")
  else
    c ← gets announcements_collection;
    let '(c', matched_count) := update_one c (VObjectId oid) update in
    _ ← put_announcements c';
    if decide (matched_count = 0)
    then raise (HTTPException 404 "Announcement not found")
    else
      c ← gets announcements_collection;
      let ann := find_one c (VObjectId oid) in
      mret (from_option _to_dict ∅ ann).

(** [DELETE /announcements/{ann_id}] *)
Definition delete_announcement (ann_id : string)
    (teacher_username : option string) : M doc :=
  _ ← _require_teacher teacher_username;
  oid ← try_except (ObjectId ann_id)
    (HTTPException 400 "Invalid announcement id");
  c ← gets announcements_collection;
  let '(c', deleted_count) := delete_one c (VObjectId oid) in
  _ ← put_announcements c';
  if decide (deleted_count = 0)
  then raise (HTTPException 404 "Announcement not found")
  else mret ({["message" := VStr "Announcement deleted"]} : doc).

End router.

(** ** Reference instances of the library parsers

    The properties below hold for every [DatetimeLib] and [BsonLib]. The
    instances here fix inputs that every version of the libraries treats
    alike and reject everything else: [iso_dates] takes a calendar date
    [YYYY-MM-DD], [iso_datetimes] also a date followed by a time of day,
    [hex_ids] an identifier of 24 hexadecimal digits. They serve to run
    the endpoints on concrete requests. *)

Definition digit (c : Ascii.ascii) : option nat :=
  let n := Ascii.nat_of_ascii c in
  if bool_decide (48 ≤ n ≤ 57) then Some (n - 48) else None.

(** The value of a run of decimal digits, most significant first. *)
Definition number (cs : list Ascii.ascii) : option nat :=
  foldl (λ acc c, n ← acc; d ← digit c; Some (10 * n + d)) (Some 0) cs.

Definition is_leap (y : nat) : bool :=
  bool_decide (y mod 4 = 0 ∧ (y mod 100 ≠ 0 ∨ y mod 400 = 0)).

Definition days_in_month (y m : nat) : nat :=
  match m with
  | 1 | 3 | 5 | 7 | 8 | 10 | 12 => 31
  | 4 | 6 | 9 | 11 => 30
  | 2 => if is_leap y then 29 else 28
  | _ => 0
  end.

(** A string [YYYY-MM-DD] that names a day of the calendar. *)
Definition parse_ymd (s : string) : option datetime.t :=
  match String.list_ascii_of_string s with
  | [y1; y2; y3; y4; s1; m1; m2; s2; d1; d2] =>
      if bool_decide (s1 = "-"%char ∧ s2 = "-"%char) then
        y ← number [y1; y2; y3; y4];
        m ← number [m1; m2];
        d ← number [d1; d2];
        if bool_decide (1 ≤ y ∧ 1 ≤ m ≤ 12 ∧ 1 ≤ d ≤ days_in_month y m)
        then Some (datetime.midnight (date.Date y m d))
        else None
      else None
  | _ => None
  end.

Definition iso_dates : DatetimeLib :=
  {| fromisoformat := parse_ymd; fromisoformat_empty := eq_refl |}.

(** A string [YYYY-MM-DD], alone or followed by one separator character
    and a time of day [HH], [HH:MM] or [HH:MM:SS]: forms that
    [datetime.fromisoformat] takes besides the bare date (fractions of a
    second and UTC offsets are left out). *)
Definition parse_time (cs : list Ascii.ascii) : option (nat * nat * nat) :=
  let colon c := bool_decide (c = ":"%char) in
  match cs with
  | [h1; h2] =>
      h ← number [h1; h2];
      if bool_decide (h < 24) then Some (h, 0, 0) else None
  | [h1; h2; c1; m1; m2] =>
      h ← number [h1; h2];
      m ← number [m1; m2];
      if colon c1 && bool_decide (h < 24 ∧ m < 60) then Some (h, m, 0) else None
  | [h1; h2; c1; m1; m2; c2; s1; s2] =>
      h ← number [h1; h2];
      m ← number [m1; m2];
      s ← number [s1; s2];
      if colon c1 && colon c2 && bool_decide (h < 24 ∧ m < 60 ∧ s < 60)
      then Some (h, m, s) else None
  | _ => None
  end.

Definition parse_ymd_time (s : string) : option datetime.t :=
  let cs := String.list_ascii_of_string s in
  d ← parse_ymd (String.string_of_list_ascii (take 10 cs));
  match drop 10 cs with
  | [] => Some d
  | _ :: time =>
      '(h, m, sec) ← parse_time time;
      Some (datetime.Datetime (datetime.date d) h m sec 0)
  end.

Definition iso_datetimes : DatetimeLib :=
  {| fromisoformat := parse_ymd_time; fromisoformat_empty := eq_refl |}.

Definition hex_value (c : Ascii.ascii) : option N :=
  let n := Ascii.N_of_ascii c in
  if bool_decide (48 ≤ n ≤ 57)%N then Some (n - 48)%N
  else if bool_decide (97 ≤ n ≤ 102)%N then Some (n - 87)%N
  else if bool_decide (65 ≤ n ≤ 70)%N then Some (n - 55)%N
  else None.

(** [bytes.fromhex] on a string of hexadecimal digits without blanks. *)
Fixpoint unhexlify (cs : list Ascii.ascii) : option string :=
  match cs with
  | [] => Some EmptyString
  | h :: l :: cs' =>
      a ← hex_value h;
      b ← hex_value l;
      s ← unhexlify cs';
      Some (String (Ascii.ascii_of_N (16 * a + b)) s)
  | [_] => None
  end.

Definition parse_hex24 (s : string) : option object_id :=
  if decide (String.length s = 24)
  then Oid <$> unhexlify (String.list_ascii_of_string s)
  else None.

Definition hex_ids : BsonLib := {| ObjectId := parse_hex24 |}.

(** ** Vocabulary of the specification *)

Section vocabulary.
Context `{DatetimeLib} `{BsonLib}.

(** The calendar date that field [k] of [a] denotes: defined when the
    field holds a string that parses as a date. *)
Definition field_date (a : doc) (k : string) : option date.t :=
  parse_date (get a k).

(** Field [k] of [a] is absent: the key is missing or holds [None]. *)
Definition absent (a : doc) (k : string) : Prop := get a k = VNone.

(** Field [k] of [a] is missing: absent, or the empty string. *)
Definition missing (a : doc) (k : string) : Prop :=
  absent a k ∨ get a k = VStr "".

(** Field [k] of [a] is present and does not parse as a date. *)
Definition unparseable (a : doc) (k : string) : Prop :=
  ∃ s, get a k = VStr s ∧ fromisoformat s = None.

(** A list of records is in non-decreasing order of ["expiration_date"]:
    of two records, the earlier one is below the later one in the order
    of the field (on strings, the order of the strings). *)
Definition sorted_by_expiration (out : list doc) : Prop :=
  ∀ i j r1 r2, i < j → out !! i = Some r1 → out !! j = Some r2 →
    field_le "expiration_date" r1 r2.

(** The window of [a] includes [today]: its expiration date is a date, on
    or after [today], and its start date, when it is a date, is on or
    before [today]. *)
Definition in_window (today : date.t) (a : doc) : Prop :=
  ∃ exp_date, field_date a "expiration_date" = Some exp_date ∧
    date.le today exp_date ∧
    ∀ start_date, field_date a "start_date" = Some start_date →
      date.le start_date today.

(** The actor resolves to an existing teacher record: a username, not
    empty, that is the ["_id"] of a document of the teachers. *)
Definition authorized (st : db) (actor : option string) : Prop :=
  ∃ u t, actor = Some u ∧ u ≠ "" ∧
    t ∈ teachers_collection st ∧ t !! "_id" = Some (VStr u).

(** The fields that a call of [update_announcement] provides. *)
Definition provided (message expiration_date start_date : option string)
    (k : string) : Prop :=
  (k = "message" ∧ is_Some message) ∨
  (k = "expiration_date" ∧ is_Some expiration_date) ∨
  (k = "start_date" ∧ is_Some start_date).

(** The states of the database that calls of the mutating endpoints
    reach from an empty collection of announcements. *)
Inductive reachable : db → Prop :=
  | reachable_empty teachers : reachable (Db [] teachers)
  | reachable_create st utcnow new_id message expiration_date actor start_date :
      reachable st →
      reachable (create_announcement utcnow new_id message expiration_date
                   actor start_date st).2
  | reachable_update st ann_id message expiration_date actor start_date :
      reachable st →
      reachable (update_announcement ann_id message expiration_date
                   actor start_date st).2
  | reachable_delete st ann_id actor :
      reachable st →
      reachable (delete_announcement ann_id actor st).2.

End vocabulary.

(** ** Sample requests and documents

    The day and the announcements of the examples of the specification,
    with the reference parsers. *)

Definition june_15 : datetime.t :=
  datetime.Datetime (date.Date 2024 6 15) 9 30 0 0.

Definition announcement (id : string) (start : value) (expiration : string) : doc :=
  <["_id" := VObjectId (Oid id)]>
  (<["message" := VStr "Science fair"]>
  (<["start_date" := start]>
  (<["expiration_date" := VStr expiration]> ∅))).

(** In its window on June 15. *)
Definition ann_current : doc :=
  announcement "aaaaaaaaaaa1" (VStr "2024-06-01") "2024-06-30".

(** Expired on June 10. *)
Definition ann_expired : doc :=
  announcement "aaaaaaaaaaa2" VNone "2024-06-10".

(** Starts on July 1. *)
Definition ann_upcoming : doc :=
  announcement "aaaaaaaaaaa3" (VStr "2024-07-01") "2024-07-31".

(** A start date that is no date. *)
Definition ann_bad_start : doc :=
  announcement "aaaaaaaaaaa4" (VStr "soon") "2024-06-20".

Definition teacher (username : string) : doc :=
  <["_id" := VStr username]> (<["display_name" := VStr "Ms. Rivera"]> ∅).

Definition sample_db : db :=
  Db [ann_upcoming; ann_current; ann_bad_start; ann_expired] [teacher "mrivera"].

(** A request to change the message of the current announcement. *)
Definition reword_request : outcome doc * db :=
  @update_announcement iso_dates hex_ids "616161616161616161616131"
    (Some "Science fair, gym B") None (Some "mrivera") None sample_db.

(** The identifier, as the client writes it, of the announcement that the
    two requests below create and then update. *)
Definition fresh_hex : string := "616161616161616161616136".

Definition fresh_id : object_id := Oid "aaaaaaaaaaa6".

(** A valid request to create an announcement for September. *)
Definition picnic_request : outcome doc * db :=
  @create_announcement iso_dates june_15 (Oid "aaaaaaaaaaa5") "Picnic"
    "2024-09-30" (Some "mrivera") (Some "2024-09-01") sample_db.

(** ** Vocabulary of the further properties *)

Section store_vocabulary.
Context `{DatetimeLib}.

(** The announcements carry pairwise distinct identifiers. *)
Definition unique_ids (c : list doc) : Prop :=
  NoDup ((λ d : doc, d !! "_id") <$> c).

(** The shape of a document that [create_announcement] writes and
    [update_announcement] keeps: an object id, a message, an
    expiration_date in the form that [date.isoformat] prints, a creation
    stamp, a creator that is not empty, and a start_date that is [None]
    or a string. *)
Definition written_by_service (d : doc) : Prop :=
  (∃ o, d !! "_id" = Some (VObjectId o)) ∧
  (∃ m, d !! "message" = Some (VStr m)) ∧
  (∃ exp_date, d !! "expiration_date" = Some (VStr (date.isoformat exp_date))) ∧
  (∃ stamp, d !! "created_at" = Some (VStr stamp)) ∧
  (∃ u, u ≠ "" ∧ d !! "created_by" = Some (VStr u)) ∧
  (∃ o, d !! "start_date" = Some (of_optional o)).

(** The start_date argument passes the validation of [create]: it is
    absent or empty, or it parses to a date that is not after the
    expiration date. *)
Definition start_accepted (start_date : option string) (exp_date : date.t) : Prop :=
  start_date = None ∨ start_date = Some "" ∨
  ∃ s dt, start_date = Some s ∧ fromisoformat s = Some dt ∧
          ¬ date.lt exp_date (datetime.date dt).

End store_vocabulary.

(** Document [d], at position [i], is the first of [c] with identifier
    [v]: the one that [find_one], [update_one] and [delete_one] pick. *)
Definition first_with_id (c : list doc) (v : value) (i : nat) (d : doc) : Prop :=
  c !! i = Some d ∧ d !! "_id" = Some v ∧
  ∀ j d', j < i → c !! j = Some d' → d' !! "_id" ≠ Some v.

(** The dates that a call of [update_announcement] provides parse. *)
Definition dates_parse `{DatetimeLib} (expiration_date start_date : option string) : Prop :=
  (∀ e, expiration_date = Some e → is_Some (fromisoformat e)) ∧
  (∀ s, start_date = Some s → is_Some (fromisoformat s)).

(** The dict of changes that [update_announcement] builds from its
    arguments, once the dates provided have parsed. *)
Definition update_fields `{DatetimeLib}
    (message expiration_date start_date : option string) : doc :=
  let update : doc := ∅ in
  let update :=
    match message with
    | Some m => <["message" := VStr m]> update
    | None => update
    end in
  let update :=
    match expiration_date ≫= fromisoformat with
    | Some dt =>
        <["expiration_date" := VStr (date.isoformat (datetime.date dt))]> update
    | None => update
    end in
  match start_date with
  | Some s => <["start_date" := VStr s]> update
  | None => update
  end.

(** A first request on a database without announcements. *)
Definition first_request : outcome doc * db :=
  @create_announcement iso_dates june_15 fresh_id "Picnic" "2024-09-30"
    (Some "mrivera") (Some "2024-09-01") (Db [] [teacher "mrivera"]).

(** A request to create an announcement in the sample database, under
    the fresh identifier. *)
Definition fresh_request : outcome doc * db :=
  @create_announcement iso_dates june_15 fresh_id "Picnic" "2024-09-30"
    (Some "mrivera") (Some "2024-09-01") sample_db.

(** A request to delete the current announcement. *)
Definition withdraw_request : outcome doc * db :=
  @delete_announcement hex_ids "616161616161616161616131" (Some "mrivera")
    sample_db.

(** * Properties *)

(** ** Dates *)

(** The order on dates is total: the negation of [<] is the converse [<=]. *)
Lemma date_not_lt (a b : date.t) : ¬ date.lt a b ↔ date.le b a.
Proof.
  destruct a as [ya ma da], b as [yb mb db].
  unfold date.le, date.lt; simpl. split.
  - intros Hn.
    destruct (decide (ya = yb ∧ ma = mb ∧ da = db)) as [(-> & -> & ->)|Hne].
    + by right.
    + left. lia.
  - intros [Hlt | Heq]; [lia|]. injection Heq as -> -> ->. lia.
Qed.

Lemma date_lt_irrefl (a : date.t) : ¬ date.lt a a.
Proof. unfold date.lt. lia. Qed.

Lemma date_lt_not_le (a b : date.t) : date.lt a b → ¬ date.le b a.
Proof. intros Hlt Hle. by apply date_not_lt in Hle. Qed.

Example isoformat_pads :
  date.isoformat (date.Date 2024 6 1) = "2024-06-01" ∧
  datetime.isoformat (datetime.Datetime (date.Date 987 12 31) 7 0 59 0)
    = "0987-12-31T07:00:59" ∧
  datetime.isoformat (datetime.Datetime (date.Date 2024 6 15) 23 5 9 1200)
    = "2024-06-15T23:05:09.001200".
Proof. by vm_compute. Qed.

Example parse_ymd_calendar :
  parse_ymd "2024-02-29" = Some (datetime.midnight (date.Date 2024 2 29)) ∧
  parse_ymd "2023-02-29" = None ∧
  parse_ymd "2024-13-40" = None ∧
  parse_ymd "2024-6-15" = None.
Proof. by vm_compute. Qed.

(** ** Order of the sort keys *)

Lemma string_ltb_not_le (s t : string) : String.ltb s t = negb (String.leb t s).
Proof.
  unfold String.ltb, String.leb. rewrite (String.compare_antisym s t).
  by destruct (String.compare t s).
Qed.

Global Instance bson_le_trans : Transitive bson_le.
Proof.
  intros [|s|o] [|t|p] [|u|q]; simpl; try done; intros; by etrans.
Qed.

Global Instance bson_le_total : Total bson_le.
Proof.
  intros [|s|o] [|t|p]; simpl; auto; apply (total String.le).
Qed.

Global Instance field_le_trans k : Transitive (field_le k).
Proof. intros a b c. unfold field_le. apply transitivity. Qed.

Global Instance field_le_total k : Total (field_le k).
Proof. intros a b. unfold field_le. apply total, _. Qed.

(** On two documents that hold strings under [k], the order is the
    order of the strings. *)
Lemma field_le_strings k (a b : doc) s t :
  a !! k = Some (VStr s) → b !! k = Some (VStr t) →
  field_le k a b ↔ String.le s t.
Proof. intros Ha Hb. unfold field_le, get. by rewrite Ha, Hb. Qed.

(** ** Stable insertion sort *)

Section sorting_facts.
Context {A : Type} (R : relation A) `{!RelDecision R}.

Lemma insert_le_perm x l : insert_le R x l ≡ₚ x :: l.
Proof.
  induction l as [|y l IH]; simpl; [done|].
  case_decide; [done|]. by rewrite IH, Permutation_swap.
Qed.

Lemma stable_sort_perm l : stable_sort R l ≡ₚ l.
Proof.
  induction l as [|x l IH]; simpl; [done|].
  by rewrite insert_le_perm, IH.
Qed.

Lemma insert_le_sorted `{!Total R} `{!Transitive R} x l :
  StronglySorted R l → StronglySorted R (insert_le R x l).
Proof.
  induction 1 as [|y l Hl IH Hy]; simpl.
  - repeat constructor.
  - case_decide as Hxy.
    + constructor; [by constructor|].
      constructor; [done|]. eapply Forall_impl; [exact Hy|].
      intros z Hz. by etrans.
    + constructor; [done|].
      rewrite insert_le_perm. constructor; [|done].
      by destruct (total R x y).
Qed.

Lemma stable_sort_sorted `{!Total R} `{!Transitive R} l :
  StronglySorted R (stable_sort R l).
Proof.
  induction l as [|x l IH]; simpl; [constructor|].
  by apply insert_le_sorted.
Qed.
End sorting_facts.

Section key_sort.
Context {A : Type} (key : A → value).

(** The order of two elements on their keys. *)
Let key_le : relation A := λ a b, bson_le (key a) (key b).

Local Instance key_le_dec : RelDecision key_le.
Proof. intros a b. unfold key_le. apply _. Defined.

Local Instance key_le_trans : Transitive key_le.
Proof. intros a b c. unfold key_le. apply transitivity. Qed.

Local Instance key_le_total : Total key_le.
Proof. intros a b. unfold key_le. apply total, _. Qed.

Lemma insert_key_strings x l :
  Forall (λ y, ∃ s, key y = VStr s) (x :: l) →
  insert_key key x l = Some (insert_le key_le x l).
Proof.
  intros Hall. apply Forall_cons in Hall as [[sx Hx] Hl].
  induction Hl as [|y l [sy Hy] Hl IH]; simpl; [done|].
  rewrite Hy, Hx. simpl. rewrite string_ltb_not_le.
  assert (key_le x y ↔ String.leb sx sy = true) as Hiff.
  { unfold key_le. rewrite Hx, Hy. simpl. apply Is_true_true. }
  destruct (decide (key_le x y)) as [Hle|Hnle].
  - apply Hiff in Hle. by rewrite Hle.
  - destruct (String.leb sx sy); simpl.
    + exfalso. by apply Hnle, Hiff.
    + by rewrite IH.
Qed.

(** When every key is a string, the sort raises nothing and is the stable
    sort on the order of the keys. *)
Lemma list_sort_strings l :
  Forall (λ y, ∃ s, key y = VStr s) l →
  list_sort key l = Some (stable_sort key_le l).
Proof.
  induction 1 as [|x l Hx Hl IH]; simpl; [done|].
  rewrite IH. simpl. apply insert_key_strings.
  constructor; [done|]. by rewrite stable_sort_perm.
Qed.

Lemma list_sort_strings_sorted l :
  Forall (λ y, ∃ s, key y = VStr s) l →
  ∃ l', list_sort key l = Some l' ∧ l' ≡ₚ l ∧
        StronglySorted (λ a b, bson_le (key a) (key b)) l'.
Proof.
  intros Hl. exists (stable_sort key_le l). split_and!.
  - by apply list_sort_strings.
  - apply stable_sort_perm.
  - apply (stable_sort_sorted key_le).
Qed.
End key_sort.

Lemma StronglySorted_impl_elem {A} (R1 R2 : relation A) l :
  (∀ x y, x ∈ l → y ∈ l → R1 x y → R2 x y) →
  StronglySorted R1 l → StronglySorted R2 l.
Proof.
  intros Himpl Hs. induction Hs as [|x l Hl IH Hx]; constructor.
  - apply IH. intros y z Hy Hz. apply Himpl; by right.
  - apply Forall_forall. intros y Hy.
    apply Himpl; [by left|by right|]. by eapply Forall_forall in Hx.
Qed.

(** In a sorted list, an element at an earlier position is below any at a
    later position. *)
Lemma StronglySorted_lookup {A} (R : relation A) l i j x y :
  StronglySorted R l → i < j → l !! i = Some x → l !! j = Some y → R x y.
Proof.
  intros Hs. revert i j. induction Hs as [|z l Hl IH Hz]; intros i j Hij Hi Hj.
  - done.
  - destruct j as [|j]; [lia|]. destruct i as [|i]; simpl in *.
    + simplify_eq. eapply Forall_forall; [exact Hz|].
      by eapply list_elem_of_lookup_2.
    + apply (IH i j); [lia|done..].
Qed.

(** ** The API view of a document *)

Lemma to_dict_lookup (d : doc) k :
  k ≠ "id" → k ≠ "_id" → _to_dict d !! k = d !! k.
Proof.
  intros Hid H_id. unfold _to_dict. case_decide as Hd.
  - by rewrite Hd.
  - by rewrite lookup_insert_ne, lookup_delete_ne.
Qed.

Lemma to_dict_get (d : doc) k :
  k ≠ "id" → k ≠ "_id" → get (_to_dict d) k = get d k.
Proof. intros. unfold get. by rewrite to_dict_lookup. Qed.

Lemma to_dict_id (d : doc) :
  d ≠ ∅ → _to_dict d !! "id" = Some (VStr (py_str (get d "_id"))).
Proof.
  intros Hd. unfold _to_dict. rewrite decide_False by done.
  by rewrite lookup_insert_eq.
Qed.

Lemma to_dict_field_le (a b : doc) :
  field_le "expiration_date" (_to_dict a) (_to_dict b) ↔
  field_le "expiration_date" a b.
Proof. unfold field_le. by rewrite !to_dict_get. Qed.

(** ** The loop of [active_announcements] *)

Section active_facts.
Context `{DatetimeLib}.

Lemma parse_date_truthy v d : parse_date v = Some d → truthy v = true.
Proof.
  destruct v as [|s|o]; simpl; try done.
  destruct (String.eqb_spec s "") as [->|]; [|done].
  by rewrite fromisoformat_empty.
Qed.

(** The start date that the loop computes is the date of the field. *)
Lemma start_date_field (a : doc) :
  (if truthy (get a "start_date") then parse_date (get a "start_date")
   else None) = field_date a "start_date".
Proof.
  unfold field_date. destruct (truthy _) eqn:Ht; [done|].
  destruct (parse_date _) eqn:Hp; [|done].
  apply parse_date_truthy in Hp. congruence.
Qed.

(** One round appends the view of the document exactly when its window
    includes the day. *)
Lemma active_step_cases now out (a : doc) :
  (in_window now a ∧ active_step now out a = out ++ [_to_dict a]) ∨
  (¬ in_window now a ∧ active_step now out a = out).
Proof.
  unfold active_step, in_window. rewrite start_date_field.
  fold (field_date a "expiration_date").
  destruct (field_date a "expiration_date") as [ed|] eqn:Hexp.
  - rewrite (parse_date_truthy _ _ Hexp). simpl.
    destruct (field_date a "start_date") as [sd|] eqn:Hstart.
    + case_bool_decide as Hlt.
      * right. split; [|done]. intros (ed' & ? & _ & Hsd).
        by eapply date_lt_not_le, Hsd.
      * apply date_not_lt in Hlt. case_bool_decide as Hle.
        -- left. split; [|done]. exists ed. naive_solver.
        -- right. split; [|done]. naive_solver.
    + case_bool_decide as Hle.
      * left. split; [|done]. exists ed. naive_solver.
      * right. split; [|done]. naive_solver.
  - right. split; [naive_solver|]. by destruct (negb _).
Qed.

Lemma elem_of_active_loop now (c out : list doc) r :
  r ∈ foldl (active_step now) out c ↔
  r ∈ out ∨ ∃ a, a ∈ c ∧ in_window now a ∧ r = _to_dict a.
Proof.
  revert out. induction c as [|a c IH]; intros out; simpl.
  - set_solver.
  - rewrite IH.
    destruct (active_step_cases now out a) as [[Hin ->]|[Hout ->]].
    + rewrite elem_of_app, list_elem_of_singleton. set_solver.
    + set_solver.
Qed.

(** The window of a document is read off its API view. *)
Lemma in_window_to_dict now (a : doc) :
  in_window now (_to_dict a) ↔ in_window now a.
Proof. unfold in_window, field_date. by rewrite !to_dict_get. Qed.

Lemma to_dict_inj_window now (a b : doc) :
  _to_dict a = _to_dict b → in_window now a → in_window now b.
Proof.
  intros Heq Ha. apply in_window_to_dict. rewrite <-Heq.
  by apply in_window_to_dict.
Qed.

(** Every record that the loop keeps holds a string that parses under
    ["expiration_date"]. *)
Lemma in_window_expiration now (a : doc) :
  in_window now a →
  ∃ s dt, a !! "expiration_date" = Some (VStr s) ∧ s ≠ "" ∧
          fromisoformat s = Some dt ∧ date.le now (datetime.date dt).
Proof.
  intros (ed & Hexp & Hle & _). unfold field_date, get in Hexp.
  destruct (a !! "expiration_date") as [[|s|o]|] eqn:Ha; simpl in Hexp; try done.
  destruct (fromisoformat s) as [dt|] eqn:Hs; simplify_eq/=.
  exists s, dt. split_and!; try done.
  intros ->. by rewrite fromisoformat_empty in Hs.
Qed.

(** [active_announcements] returns: the final sort compares strings
    only. Its result is a sorted rearrangement of what the loop kept. *)
Lemma active_announcements_returns utcnow st :
  ∃ out, active_announcements utcnow st = (Return out, st) ∧
    out ≡ₚ foldl (active_step (datetime.date utcnow)) []
             (announcements_collection st) ∧
    StronglySorted (field_le "expiration_date") out.
Proof.
  set (kept := foldl _ _ _).
  assert (Forall (λ r : doc, ∃ s, r !! "expiration_date" = Some (VStr s)) kept)
    as Hstr.
  { apply Forall_forall. intros r Hr.
    apply elem_of_active_loop in Hr as [Hr|(a & _ & Hwin & ->)]; [set_solver|].
    apply in_window_expiration in Hwin as (s & _ & Hs & _).
    exists s. by rewrite to_dict_lookup. }
  destruct (list_sort_strings_sorted sort_key kept) as (out & Hsort & Hperm & Hs).
  { eapply Forall_impl; [exact Hstr|]. intros r [s Hr].
    exists s. unfold sort_key. by rewrite Hr. }
  exists out. split_and!; [|done|].
  - unfold active_announcements, mbind, M_bind, gets; simpl.
    fold kept. by rewrite Hsort.
  - eapply StronglySorted_impl_elem; [|exact Hs].
    intros x y Hx Hy. rewrite Hperm in Hx, Hy.
    destruct (proj1 (Forall_forall _ _) Hstr x Hx) as [sx Hsx].
    destruct (proj1 (Forall_forall _ _) Hstr y Hy) as [sy Hsy].
    unfold field_le, get, sort_key. by rewrite Hsx, Hsy.
Qed.

End active_facts.

(** ** Collections *)

Lemma has_id_true v (d : doc) : has_id v d = true ↔ d !! "_id" = Some v.
Proof. unfold has_id. apply bool_decide_eq_true. Qed.

Lemma find_one_Some (c : list doc) v d :
  find_one c v = Some d → d ∈ c ∧ d !! "_id" = Some v.
Proof.
  intros Hf. apply find_some in Hf as [Hin Hid].
  split; [by apply list_elem_of_In|by apply has_id_true].
Qed.

Lemma find_one_None (c : list doc) v d :
  find_one c v = None → d ∈ c → d !! "_id" ≠ Some v.
Proof.
  intros Hf Hin Hid. apply list_elem_of_In in Hin.
  eapply find_none in Hf; [|exact Hin]. apply has_id_true in Hid. congruence.
Qed.

Lemma find_one_is_Some (c : list doc) v d :
  d ∈ c → d !! "_id" = Some v → is_Some (find_one c v).
Proof.
  intros Hin Hid. destruct (find_one c v) eqn:Hf; [done|].
  by destruct (find_one_None _ _ _ Hf Hin).
Qed.

(** [update_one] either matches nothing and leaves the collection as it
    is, or overwrites one document, the first with the identifier, which
    is then the one that [find_one] returns. *)
Lemma update_one_cases (c : list doc) v (upd : doc) :
  upd !! "_id" = None →
  (find_one c v = None ∧ update_one c v upd = (c, 0)) ∨
  (∃ i old, c !! i = Some old ∧ old !! "_id" = Some v ∧
     update_one c v upd = (<[i := upd ∪ old]> c, 1) ∧
     find_one (<[i := upd ∪ old]> c) v = Some (upd ∪ old)).
Proof.
  intros Hupd. induction c as [|d c IH]; simpl; [by left|].
  unfold find_one in *; simpl. destruct (has_id v d) eqn:Hd.
  - right. exists 0, d. apply has_id_true in Hd. split_and!; try done.
    simpl. assert (has_id v (upd ∪ d) = true) as ->; [|done].
    apply has_id_true. by rewrite lookup_union_r.
  - destruct IH as [[Hnone ->]|(i & old & Hi & Hold & -> & Hfind)]; [by left|].
    right. exists (S i), old. split_and!; try done.
    simpl. by rewrite Hd.
Qed.

Lemma delete_one_cases (c : list doc) v :
  delete_one c v = (c, 0) ∨ ∃ c', delete_one c v = (c', 1).
Proof.
  induction c as [|d c IH]; simpl; [by left|].
  destruct (has_id v d); [right; by eexists|].
  destruct IH as [->|[c' ->]]; [by left|right; by eexists].
Qed.

(** ** The credential check *)

(** Unfolds the plumbing of the monad in the goal. *)
Ltac unfold_monad :=
  unfold mbind, M_bind, mret, M_ret, raise, gets, try_except,
    put_announcements; simpl.

Lemma require_teacher_authorized st actor :
  authorized st actor → ∃ t, _require_teacher actor st = (Return t, st).
Proof.
  intros (u & t & -> & Hu & Hin & Hid).
  unfold _require_teacher, mbind, M_bind, gets; simpl.
  apply String.eqb_neq in Hu. rewrite Hu; simpl.
  destruct (find_one_is_Some _ _ _ Hin Hid) as [t' Ht']. rewrite Ht'.
  apply find_one_Some in Ht' as [_ Ht'].
  rewrite decide_False; [by eexists|].
  intros ->. by rewrite lookup_empty in Ht'.
Qed.

Lemma require_teacher_unauthorized st actor :
  ¬ authorized st actor →
  ∃ e, _require_teacher actor st = (Raise e, st) ∧ Unauthorized e.
Proof.
  intros Hno. unfold _require_teacher.
  destruct (truthy (of_optional actor)) eqn:Htruthy; simpl;
    [|eexists; split; [done|by eexists]].
  unfold mbind, M_bind, gets; simpl.
  destruct (find_one _ _) as [t|] eqn:Hfind;
    [|eexists; split; [done|by eexists]].
  destruct Hno. destruct actor as [u|]; [|done].
  apply find_one_Some in Hfind as [Hin Hid].
  exists u, t. split_and!; try done.
  intros ->. done.
Qed.

Lemma require_teacher_returns st actor t st' :
  _require_teacher actor st = (Return t, st') → authorized st actor ∧ st' = st.
Proof.
  unfold _require_teacher.
  destruct (truthy (of_optional actor)) eqn:Htruthy; simpl; [|done].
  unfold_monad. destruct (find_one _ _) as [d|] eqn:Hfind; [|done].
  case_decide; [done|]. intros [= <- <-].
  destruct actor as [u|]; [|done].
  apply find_one_Some in Hfind as [Hin Hid].
  split; [|done]. exists u, d. split_and!; try done. by intros ->.
Qed.

Lemma require_teacher_raises st actor e st' :
  _require_teacher actor st = (Raise e, st') → Unauthorized e.
Proof.
  unfold _require_teacher. unfold_monad. intros Hrun.
  repeat case_match; simplify_eq/=; by eexists.
Qed.

Lemma require_teacher_state st actor o st' :
  _require_teacher actor st = (o, st') → st' = st.
Proof.
  unfold _require_teacher, mbind, M_bind, gets, raise, mret, M_ret.
  intros Hrun. repeat case_match; by simplify_eq/=.
Qed.

(** ** What [create] and [update] do when they return *)

Section mutation_facts.
Context `{DatetimeLib} `{BsonLib}.

Lemma update_returns ann_id message expiration_date actor start_date st r st' :
  update_announcement ann_id message expiration_date actor start_date st
    = (Return r, st') →
  ∃ oid upd i old,
    ObjectId ann_id = Some oid ∧
    (∀ k, is_Some (upd !! k) → provided message expiration_date start_date k) ∧
    (∀ m, message = Some m → upd !! "message" = Some (VStr m)) ∧
    (∀ e, expiration_date = Some e →
       ∃ dt, fromisoformat e = Some dt ∧
         upd !! "expiration_date" = Some (VStr (date.isoformat (datetime.date dt)))) ∧
    (∀ s, start_date = Some s →
       is_Some (fromisoformat s) ∧ upd !! "start_date" = Some (VStr s)) ∧
    announcements_collection st !! i = Some old ∧
    old !! "_id" = Some (VObjectId oid) ∧
    st' = Db (<[i := upd ∪ old]> (announcements_collection st))
             (teachers_collection st) ∧
    r = _to_dict (upd ∪ old).
Proof.
  unfold update_announcement. unfold_monad.
  destruct (_require_teacher actor st) as [[t|e] st1] eqn:Hreq; [|done].
  apply require_teacher_state in Hreq as ->.
  destruct (ObjectId ann_id) as [oid|]; simpl; [|done].
  destruct message as [m|], expiration_date as [e|], start_date as [s|]; simpl;
    try (destruct (fromisoformat e) as [dt|] eqn:He; simpl; [|done]);
    try (destruct (fromisoformat s) as [sdt|] eqn:Hs; simpl; [|done]);
    (case_decide as Hempty; [done|]);
    (match goal with
     | |- context [update_one ?c ?v ?u] =>
         destruct (update_one_cases c v u)
           as [[_ ->]|(i & old & Hi & Hold & -> & Hfind)];
           [by simplify_map_eq|done|]
     end);
    simpl; rewrite Hfind; simpl; intros [= <- <-];
    exists oid; eexists; exists i, old;
    (split_and!; [done| | | | |done|done|done|done]);
    try (intros ? [=]; subst); try (by simplify_map_eq); eauto.
  all: try (intros k [v Hk]; unfold provided;
            repeat (rewrite lookup_insert in Hk; case_decide; subst;
                    [eauto 10|]); by rewrite lookup_empty in Hk).
Qed.

(** Inserting a dict without ["_id"]: refused when the generated
    identifier is taken, else the dict with the identifier is appended. *)
Lemma insert_one_fresh (d : doc) new_id st :
  d !! "_id" = None →
  insert_one d new_id st =
    if decide (is_Some (find_one (announcements_collection st) (VObjectId new_id)))
    then (Raise DuplicateKeyError, st)
    else (Return (<["_id" := VObjectId new_id]> d, VObjectId new_id),
          Db (announcements_collection st ++ [<["_id" := VObjectId new_id]> d])
             (teachers_collection st)).
Proof.
  intros Hd. unfold insert_one.
  rewrite decide_False by (rewrite Hd; apply is_Some_None).
  unfold get. rewrite lookup_insert_eq. unfold_monad.
  by case_decide.
Qed.

(** The document that a successful [create] stores. *)
Lemma create_returns utcnow new_id message expiration_date actor start_date st r st' :
  create_announcement utcnow new_id message expiration_date actor start_date st
    = (Return r, st') →
  ∃ exp_dt (d : doc),
    authorized st actor ∧
    fromisoformat expiration_date = Some exp_dt ∧
    d !! "_id" = Some (VObjectId new_id) ∧
    d !! "message" = Some (VStr message) ∧
    d !! "start_date" = Some (of_optional start_date) ∧
    d !! "expiration_date" = Some (VStr (date.isoformat (datetime.date exp_dt))) ∧
    d !! "created_at" = Some (VStr (datetime.isoformat utcnow)) ∧
    d !! "created_by" = Some (of_optional actor) ∧
    st' = Db (announcements_collection st ++ [d]) (teachers_collection st) ∧
    r = <["id" := VStr (py_str (VObjectId new_id))]> d.
Proof.
  unfold create_announcement. unfold_monad.
  destruct (_require_teacher actor st) as [[t|e] st1] eqn:Hreq; [|done].
  apply require_teacher_returns in Hreq as [Hauth ->].
  destruct (fromisoformat expiration_date) as [exp_dt|] eqn:Hexp; simpl; [|done].
  assert (truthy (of_optional actor) = true) as ->.
  { destruct Hauth as (u & _ & -> & Hu & _). simpl.
    by apply negb_true_iff, String.eqb_neq. }
  match goal with
  | |- (let (_, _) := ?blk st in _) = _ → _ =>
      destruct (blk st) as [[[]|e] st1] eqn:Hblk; [|done]
  end.
  assert (st1 = st) as ->.
  { revert Hblk. unfold_monad. intros Hblk. repeat case_match; by simplify_eq/=. }
  clear Hblk. rewrite insert_one_fresh by by simplify_map_eq.
  case_decide; [done|]. intros [= <- <-].
  eexists _, _. split_and!; [done|done|..|done|done]; by simplify_map_eq.
Qed.
End mutation_facts.

(** * The claims *)

(** ** Listing *)

(** Running the two listings on the sample database on June 15: the
    current announcement is active, the expired and the upcoming one are
    not; both lists are in the order of the expiration dates. *)
Example sample_listings :
  (@active_announcements iso_dates june_15 sample_db).1 =
    Return [_to_dict ann_bad_start; _to_dict ann_current] ∧
  (list_announcements sample_db).1 =
    Return (_to_dict <$> [ann_expired; ann_bad_start; ann_current; ann_upcoming]).
Proof. split; apply (bool_decide_unpack _); by vm_compute. Qed.

(** C1 (amended): for every stored announcement whose expiration_date
    parses as a date, the active listing includes it exactly when (its
    start_date is absent, empty or does not parse as a date, or it parses
    to a date on or before today) and today is on or before the
    expiration date, today being the date of the UTC clock; both bounds
    are inclusive. *)
Theorem C1_active_window `{DatetimeLib} (utcnow : datetime.t) (st : db)
    (a : doc) (exp_date : date.t) :
  a ∈ announcements_collection st →
  field_date a "expiration_date" = Some exp_date →
  ∃ out, active_announcements utcnow st = (Return out, st) ∧
    (_to_dict a ∈ out ↔
       (field_date a "start_date" = None ∨
        ∃ start_date, field_date a "start_date" = Some start_date ∧
                      date.le start_date (datetime.date utcnow)) ∧
       date.le (datetime.date utcnow) exp_date).
Proof.
  intros Hin Hexp.
  destruct (active_announcements_returns utcnow st) as (out & Hrun & Hperm & _).
  exists out. split; [done|]. rewrite Hperm, elem_of_active_loop.
  split.
  - intros [Hnil|(b & _ & Hwin & Heq)]; [by apply not_elem_of_nil in Hnil|].
    symmetry in Heq. apply (to_dict_inj_window _ _ _ Heq) in Hwin.
    destruct Hwin as (ed & Hed & Hle & Hstart).
    rewrite Hexp in Hed. injection Hed as <-. split; [|done].
    destruct (field_date a "start_date") as [sd|]; [right|by left].
    exists sd. split; [done|]. by apply Hstart.
  - intros [Hstart Hle]. right. exists a. split_and!; try done.
    exists exp_date. split_and!; try done.
    intros sd Hsd. destruct Hstart as [Hnone|(sd' & Hsd' & Hle')]; congruence.
Qed.

Lemma C1_active_window_witness :
  ∃ out, @active_announcements iso_dates june_15 sample_db = (Return out, sample_db) ∧
    (_to_dict ann_current ∈ out ↔
       (@field_date iso_dates ann_current "start_date" = None ∨
        ∃ start_date, @field_date iso_dates ann_current "start_date" = Some start_date ∧
                      date.le start_date (datetime.date june_15)) ∧
       date.le (datetime.date june_15) (date.Date 2024 6 30)).
Proof.
  apply (@C1_active_window iso_dates june_15 sample_db ann_current).
  - right. left.
  - reflexivity.
Defined.

(** C1 as stated fails where the start_date is present and is no date:
    on June 15 the listing includes such an announcement, whose
    start_date is neither absent nor a date on or before the day. *)
Lemma C1_start_not_a_date :
  ann_bad_start ∈ announcements_collection sample_db ∧
  @field_date iso_dates ann_bad_start "expiration_date" = Some (date.Date 2024 6 20) ∧
  (∃ out, @active_announcements iso_dates june_15 sample_db = (Return out, sample_db) ∧
          _to_dict ann_bad_start ∈ out) ∧
  ¬ ((absent ann_bad_start "start_date" ∨
      ∃ start_date, @field_date iso_dates ann_bad_start "start_date" = Some start_date ∧
                    date.le start_date (datetime.date june_15)) ∧
     date.le (datetime.date june_15) (date.Date 2024 6 20)).
Proof.
  split_and!.
  - do 2 right. left.
  - reflexivity.
  - eexists. split; [by vm_compute|]. left.
  - intros [[Habsent|(sd & Hsd & _)] _]; [by vm_compute in Habsent|].
    by vm_compute in Hsd.
Qed.

Lemma list_announcements_returns (st : db) :
  list_announcements st =
    (Return (_to_dict <$> find_sorted (announcements_collection st) "expiration_date"), st).
Proof. done. Qed.

(** C2: in every state of the store, the full listing is in
    non-decreasing order of the expiration_date string, and so is the
    active listing, whose records all hold a string there. *)
Theorem C2_sorted_by_expiration `{DatetimeLib} (utcnow : datetime.t) (st : db) :
  (∃ out, list_announcements st = (Return out, st) ∧
          sorted_by_expiration out) ∧
  (∃ out, active_announcements utcnow st = (Return out, st) ∧
          sorted_by_expiration out ∧
          ∀ r, r ∈ out → ∃ s, r !! "expiration_date" = Some (VStr s)).
Proof.
  split.
  - eexists. split; [apply list_announcements_returns|].
    intros i j r1 r2 Hij Hi Hj.
    eapply StronglySorted_lookup; [|exact Hij|exact Hi|exact Hj].
    eapply StronglySorted_fmap; [|apply (stable_sort_sorted (field_le _))].
    intros a b. apply to_dict_field_le.
  - destruct (active_announcements_returns utcnow st) as (out & Hrun & Hperm & Hs).
    exists out. split_and!; [done| |].
    + intros i j r1 r2 Hij Hi Hj. by eapply StronglySorted_lookup.
    + intros r Hr. rewrite Hperm in Hr.
      apply elem_of_active_loop in Hr as [Hr|(a & _ & Hwin & ->)];
        [by apply not_elem_of_nil in Hr|].
      apply in_window_expiration in Hwin as (s & _ & Hs' & _).
      exists s. by rewrite to_dict_lookup.
Qed.

(** C3: in every state of the store, the active listing returns, and
    includes no announcement whose expiration_date is missing (absent or
    empty) or does not parse as a date: every record of the result holds
    there a string, not empty, that parses. *)
Theorem C3_expiration_required `{DatetimeLib} (utcnow : datetime.t) (st : db) :
  ∃ out, active_announcements utcnow st = (Return out, st) ∧
    (∀ a, a ∈ announcements_collection st →
       missing a "expiration_date" ∨ unparseable a "expiration_date" →
       _to_dict a ∉ out) ∧
    (∀ r, r ∈ out →
       ∃ s dt, r !! "expiration_date" = Some (VStr s) ∧ s ≠ "" ∧
               fromisoformat s = Some dt).
Proof.
  destruct (active_announcements_returns utcnow st) as (out & Hrun & Hperm & _).
  exists out. split_and!; [done| |].
  - intros a _ Hbad Hin. rewrite Hperm in Hin.
    apply elem_of_active_loop in Hin as [Hin|(b & _ & Hwin & Heq)];
      [by apply not_elem_of_nil in Hin|].
    symmetry in Heq. apply (to_dict_inj_window _ _ _ Heq) in Hwin.
    apply in_window_expiration in Hwin as (s & dt & Hs & Hne & Hdt & _).
    unfold missing, absent, unparseable, get in Hbad. rewrite Hs in Hbad.
    simpl in Hbad. destruct Hbad as [[?|?]|(s' & ? & ?)]; simplify_eq.
  - intros r Hr. rewrite Hperm in Hr.
    apply elem_of_active_loop in Hr as [Hr|(a & _ & Hwin & ->)];
      [by apply not_elem_of_nil in Hr|].
    apply in_window_expiration in Hwin as (s & dt & Hs & Hne & Hdt & _).
    exists s, dt. by rewrite to_dict_lookup.
Qed.

(** C4: a stored announcement whose start_date is present but does not
    parse as a date, and whose expiration_date parses to a date on or
    after today, is in the active listing: the start_date sets no lower
    bound. *)
Theorem C4_malformed_start_ignored `{DatetimeLib} (utcnow : datetime.t)
    (st : db) (a : doc) (exp_date : date.t) :
  a ∈ announcements_collection st →
  unparseable a "start_date" →
  field_date a "expiration_date" = Some exp_date →
  date.le (datetime.date utcnow) exp_date →
  ∃ out, active_announcements utcnow st = (Return out, st) ∧ _to_dict a ∈ out.
Proof.
  intros Hin (s & Hs & Hnone) Hexp Hle.
  destruct (active_announcements_returns utcnow st) as (out & Hrun & Hperm & _).
  exists out. split; [done|]. rewrite Hperm, elem_of_active_loop.
  right. exists a. split_and!; try done.
  exists exp_date. split_and!; try done.
  intros sd Hsd. unfold field_date in Hsd. rewrite Hs in Hsd. simpl in Hsd.
  by rewrite Hnone in Hsd.
Qed.

Lemma C4_malformed_start_ignored_witness :
  ∃ out, @active_announcements iso_dates june_15 sample_db = (Return out, sample_db) ∧
         _to_dict ann_bad_start ∈ out.
Proof.
  apply (@C4_malformed_start_ignored iso_dates june_15 sample_db ann_bad_start
           (date.Date 2024 6 20)).
  - do 2 right. left.
  - exists "soon". split; reflexivity.
  - reflexivity.
  - vm_compute. left. lia.
Defined.

(** ** Validation of the mutating requests *)

(** C5: for an authorized actor and two dates that parse, the start_date
    strictly after the expiration_date, [create] fails with InvalidInput
    and leaves the store as it was. *)
Theorem C5_start_after_expiration `{DatetimeLib} (utcnow : datetime.t)
    (new_id : object_id) (message expiration_date start_date : string)
    (actor : option string) (st : db) (exp_dt start_dt : datetime.t) :
  authorized st actor →
  fromisoformat expiration_date = Some exp_dt →
  fromisoformat start_date = Some start_dt →
  date.lt (datetime.date exp_dt) (datetime.date start_dt) →
  ∃ e, create_announcement utcnow new_id message expiration_date actor
         (Some start_date) st = (Raise e, st) ∧ InvalidInput e.
Proof.
  intros Hauth Hexp Hstart Hlt.
  destruct (require_teacher_authorized _ _ Hauth) as [t Ht].
  assert (truthy (VStr start_date) = true) as Htruthy.
  { apply (parse_date_truthy _ (datetime.date start_dt)). simpl. by rewrite Hstart. }
  unfold create_announcement. unfold_monad.
  rewrite Ht, Hexp; simpl in *. rewrite Htruthy, Hstart; simpl.
  rewrite bool_decide_eq_true_2 by done.
  eexists. split; [done|]. by eexists.
Qed.

Lemma C5_start_after_expiration_witness :
  ∃ e, @create_announcement iso_dates june_15 (Oid "aaaaaaaaaaa5") "Picnic"
         "2024-06-01" (Some "mrivera") (Some "2024-07-01") sample_db
       = (Raise e, sample_db) ∧ InvalidInput e.
Proof.
  apply (@C5_start_after_expiration iso_dates june_15 (Oid "aaaaaaaaaaa5")
           "Picnic" "2024-06-01" "2024-07-01" (Some "mrivera") sample_db
           (datetime.midnight (date.Date 2024 6 1))
           (datetime.midnight (date.Date 2024 7 1))).
  - exists "mrivera", (teacher "mrivera").
    split_and!; [reflexivity|discriminate|left|reflexivity].
  - reflexivity.
  - reflexivity.
  - vm_compute. right. split; [reflexivity|]. left. lia.
Defined.

(** C6 (amended): for an authorized actor, [create] fails with
    InvalidInput and inserts nothing whenever [datetime.fromisoformat]
    rejects the expiration_date; a string that it takes, such as a date
    followed by a time, is not refused. *)
Theorem C6_expiration_must_parse `{DatetimeLib} (utcnow : datetime.t)
    (new_id : object_id) (message expiration_date : string)
    (actor start_date : option string) (st : db) :
  authorized st actor →
  fromisoformat expiration_date = None →
  ∃ e, create_announcement utcnow new_id message expiration_date actor
         start_date st = (Raise e, st) ∧ InvalidInput e.
Proof.
  intros Hauth Hexp.
  destruct (require_teacher_authorized _ _ Hauth) as [t Ht].
  unfold create_announcement. unfold_monad. rewrite Ht, Hexp; simpl.
  eexists. split; [done|]. by eexists.
Qed.

Lemma C6_expiration_must_parse_witness :
  ∃ e, @create_announcement iso_dates june_15 (Oid "aaaaaaaaaaa5") "Picnic"
         "2024-13-40" (Some "mrivera") None sample_db
       = (Raise e, sample_db) ∧ InvalidInput e.
Proof.
  apply (@C6_expiration_must_parse iso_dates).
  - exists "mrivera", (teacher "mrivera").
    split_and!; [reflexivity|discriminate|left|reflexivity].
  - reflexivity.
Defined.

(** C7: for an actor that is absent (none, or empty) or is the
    identifier of no teacher record, each of [create], [update] and
    [delete] fails with Unauthorized and leaves the store as it was. *)
Theorem C7_unauthorized `{DatetimeLib} `{BsonLib} (st : db) (actor : option string) :
  ¬ authorized st actor →
  (∀ utcnow new_id message expiration_date start_date,
     ∃ e, create_announcement utcnow new_id message expiration_date actor
            start_date st = (Raise e, st) ∧ Unauthorized e) ∧
  (∀ ann_id message expiration_date start_date,
     ∃ e, update_announcement ann_id message expiration_date actor
            start_date st = (Raise e, st) ∧ Unauthorized e) ∧
  (∀ ann_id,
     ∃ e, delete_announcement ann_id actor st = (Raise e, st) ∧ Unauthorized e).
Proof.
  intros Hno.
  destruct (require_teacher_unauthorized _ _ Hno) as (e & Hrun & He).
  split_and!; intros; exists e; (split; [|done]).
  - unfold create_announcement. unfold_monad. by rewrite Hrun.
  - unfold update_announcement. unfold_monad. by rewrite Hrun.
  - unfold delete_announcement. unfold_monad. by rewrite Hrun.
Qed.

Lemma C7_unauthorized_witness :
  (∀ utcnow new_id message expiration_date start_date,
     ∃ e, @create_announcement iso_dates utcnow new_id message expiration_date
            (Some "intruder") start_date sample_db = (Raise e, sample_db) ∧
          Unauthorized e) ∧
  (∀ ann_id message expiration_date start_date,
     ∃ e, @update_announcement iso_dates hex_ids ann_id message expiration_date
            (Some "intruder") start_date sample_db = (Raise e, sample_db) ∧
          Unauthorized e) ∧
  (∀ ann_id,
     ∃ e, @delete_announcement hex_ids ann_id (Some "intruder") sample_db
          = (Raise e, sample_db) ∧ Unauthorized e).
Proof.
  apply (@C7_unauthorized iso_dates hex_ids sample_db (Some "intruder")).
  intros (u & t & Hu & _ & Hin & Hid). injection Hu as <-.
  apply list_elem_of_singleton in Hin as ->. discriminate Hid.
Defined.

(** ** Round trip and frame *)

(** C8: after a [create] that returns, the full listing holds a record
    with the identifier of the created one, whose message is the one
    given, whose expiration_date is the parsed date written back as
    [YYYY-MM-DD], and whose start_date is the argument as given. *)
Theorem C8_round_trip `{DatetimeLib} (utcnow : datetime.t) (new_id : object_id)
    (message expiration_date : string) (actor start_date : option string)
    (st st' : db) (r : doc) :
  create_announcement utcnow new_id message expiration_date actor start_date st
    = (Return r, st') →
  ∃ exp_dt out rec,
    fromisoformat expiration_date = Some exp_dt ∧
    list_announcements st' = (Return out, st') ∧
    rec ∈ out ∧
    rec !! "id" = r !! "id" ∧
    rec !! "message" = Some (VStr message) ∧
    rec !! "expiration_date" =
      Some (VStr (date.isoformat (datetime.date exp_dt))) ∧
    rec !! "start_date" = Some (of_optional start_date).
Proof.
  intros Hrun.
  apply create_returns in Hrun
    as (exp_dt & d & _ & Hexp & Hid & Hmsg & Hstart & Hexpd & _ & _ & -> & ->).
  exists exp_dt. eexists. exists (_to_dict d).
  split_and!; [done|apply list_announcements_returns|..].
  - apply list_elem_of_fmap_2. unfold find_sorted. rewrite stable_sort_perm.
    simpl. apply elem_of_app. right. by left.
  - rewrite lookup_insert_eq, to_dict_id.
    + unfold get. by rewrite Hid.
    + intros ->. by rewrite lookup_empty in Hid.
  - rewrite to_dict_lookup; done.
  - rewrite to_dict_lookup; done.
  - rewrite to_dict_lookup; done.
Qed.

Lemma C8_round_trip_witness :
  ∃ r st', picnic_request = (Return r, st') ∧
    ∃ exp_dt out rec,
      parse_ymd "2024-09-30" = Some exp_dt ∧
      list_announcements st' = (Return out, st') ∧
      rec ∈ out ∧
      rec !! "id" = r !! "id" ∧
      rec !! "message" = Some (VStr "Picnic") ∧
      rec !! "expiration_date" =
        Some (VStr (date.isoformat (datetime.date exp_dt))) ∧
      rec !! "start_date" = Some (VStr "2024-09-01").
Proof.
  eexists _, _. split; [by vm_compute|].
  apply (@C8_round_trip iso_dates june_15 (Oid "aaaaaaaaaaa5") "Picnic"
           "2024-09-30" (Some "mrivera") (Some "2024-09-01") sample_db).
  by vm_compute.
Defined.

Lemma to_dict_lookup_frame (old new : doc) k :
  is_Some (old !! "_id") →
  new !! "_id" = old !! "_id" →
  new !! k = old !! k →
  _to_dict new !! k = _to_dict old !! k.
Proof.
  intros [v Hv] Hid Hk. unfold _to_dict.
  rewrite !decide_False.
  - destruct (decide (k = "id")) as [->|Hne].
    + rewrite !lookup_insert_eq. unfold get. by rewrite Hid.
    + rewrite !lookup_insert_ne by done.
      destruct (decide (k = "_id")) as [->|Hne'].
      * by rewrite !lookup_delete_eq.
      * by rewrite !lookup_delete_ne.
  - intros ->. by rewrite lookup_empty in Hv.
  - intros ->. rewrite Hv in Hid. by rewrite lookup_empty in Hid.
Qed.

(** C9: after an [update] that returns, one stored record has changed,
    the one with the identifier; in it, and in the record returned,
    every field that the call did not provide has its previous value
    (among them created_at, created_by and the identifier), the fields
    provided hold the values given; every other record, and the number
    of records, is as before. *)
Theorem C9_update_frame `{DatetimeLib} `{BsonLib} (ann_id : string)
    (message expiration_date actor start_date : option string)
    (st st' : db) (r : doc) :
  update_announcement ann_id message expiration_date actor start_date st
    = (Return r, st') →
  ∃ i old new,
    announcements_collection st !! i = Some old ∧
    announcements_collection st' = <[i := new]> (announcements_collection st) ∧
    teachers_collection st' = teachers_collection st ∧
    r = _to_dict new ∧
    (∀ k, ¬ provided message expiration_date start_date k →
       new !! k = old !! k ∧ r !! k = _to_dict old !! k) ∧
    (∀ m, message = Some m → new !! "message" = Some (VStr m)) ∧
    (∀ e, expiration_date = Some e →
       ∃ dt, fromisoformat e = Some dt ∧
         new !! "expiration_date" =
           Some (VStr (date.isoformat (datetime.date dt)))) ∧
    (∀ s, start_date = Some s → new !! "start_date" = Some (VStr s)) ∧
    (∀ j, j ≠ i →
       announcements_collection st' !! j = announcements_collection st !! j) ∧
    length (announcements_collection st') = length (announcements_collection st).
Proof.
  intros Hrun.
  apply update_returns in Hrun
    as (oid & upd & i & old & _ & Hdom & Hmsg & Hexp & Hstart & Hi & Hid & -> & ->).
  exists i, old, (upd ∪ old). simpl.
  assert (∀ k, ¬ provided message expiration_date start_date k →
            (upd ∪ old) !! k = old !! k) as Hframe.
  { intros k Hk. apply lookup_union_r.
    destruct (upd !! k) eqn:Hu; [|done]. destruct Hk. by apply Hdom. }
  split_and!; try done.
  - intros k Hk. split; [by apply Hframe|].
    apply to_dict_lookup_frame; [by rewrite Hid| |by apply Hframe].
    apply Hframe. unfold provided. intros [[? _]|[[? _]|[? _]]]; done.
  - intros m Hm. by apply lookup_union_Some_l, Hmsg.
  - intros e He. destruct (Hexp e He) as (dt & Hdt & Hu).
    exists dt. split; [done|]. by apply lookup_union_Some_l.
  - intros s Hs. by apply lookup_union_Some_l, Hstart.
  - intros j Hj. by apply list_lookup_insert_ne.
  - apply length_insert.
Qed.

Lemma C9_update_frame_witness :
  ∃ r st', reword_request = (Return r, st') ∧
  ∃ i old new,
    announcements_collection sample_db !! i = Some old ∧
    announcements_collection st' = <[i := new]> (announcements_collection sample_db) ∧
    teachers_collection st' = teachers_collection sample_db ∧
    r = _to_dict new ∧
    (∀ k, ¬ provided (Some "Science fair, gym B") None None k →
       new !! k = old !! k ∧ r !! k = _to_dict old !! k) ∧
    (∀ m, Some "Science fair, gym B" = Some m → new !! "message" = Some (VStr m)) ∧
    (∀ e, None = Some e →
       ∃ dt, parse_ymd e = Some dt ∧
         new !! "expiration_date" =
           Some (VStr (date.isoformat (datetime.date dt)))) ∧
    (∀ s, None = Some s → new !! "start_date" = Some (VStr s)) ∧
    (∀ j, j ≠ i →
       announcements_collection st' !! j = announcements_collection sample_db !! j) ∧
    length (announcements_collection st') = length (announcements_collection sample_db).
Proof.
  eexists _, _. split; [by vm_compute|].
  apply (@C9_update_frame iso_dates hex_ids "616161616161616161616131"
           (Some "Science fair, gym B") None (Some "mrivera") None sample_db).
  by vm_compute.
Defined.

(** ** The missing ordering check of [update] *)

Section runs.
Context `{DatetimeLib} `{BsonLib}.

(** A valid [create] by an authorized actor returns, given a fresh
    identifier. *)
Lemma create_runs utcnow new_id message expiration_date actor start_date st exp_dt :
  authorized st actor →
  fromisoformat expiration_date = Some exp_dt →
  (∀ s, start_date = Some s →
     ∃ dt, fromisoformat s = Some dt ∧
           ¬ date.lt (datetime.date exp_dt) (datetime.date dt)) →
  find_one (announcements_collection st) (VObjectId new_id) = None →
  ∃ r st', create_announcement utcnow new_id message expiration_date actor
             start_date st = (Return r, st').
Proof.
  intros Hauth Hexp Hstart Hfresh.
  destruct (require_teacher_authorized _ _ Hauth) as [t Ht].
  unfold create_announcement. unfold_monad. rewrite Ht, Hexp. simpl.
  destruct start_date as [s|]; simpl.
  - destruct (Hstart s eq_refl) as (dt & Hdt & Hle).
    assert (s ≠ "") as Hs. { intros ->. by rewrite fromisoformat_empty in Hdt. }
    apply String.eqb_neq in Hs. rewrite Hs, Hdt. simpl.
    rewrite bool_decide_eq_false_2 by done.
    rewrite insert_one_fresh by by simplify_map_eq.
    rewrite Hfresh, decide_False by apply is_Some_None. by eexists _, _.
  - rewrite insert_one_fresh by by simplify_map_eq.
    rewrite Hfresh, decide_False by apply is_Some_None. by eexists _, _.
Qed.

(** An [update] by an authorized actor returns when the identifier is
    that of a stored announcement, the dates provided parse, and some
    field is provided. *)
Lemma update_runs ann_id message expiration_date actor start_date st oid (d : doc) :
  authorized st actor →
  ObjectId ann_id = Some oid →
  (∀ e, expiration_date = Some e → is_Some (fromisoformat e)) →
  (∀ s, start_date = Some s → is_Some (fromisoformat s)) →
  is_Some message ∨ is_Some expiration_date ∨ is_Some start_date →
  d ∈ announcements_collection st →
  d !! "_id" = Some (VObjectId oid) →
  ∃ r st', update_announcement ann_id message expiration_date actor
             start_date st = (Return r, st').
Proof.
  intros Hauth Hoid Hexp Hstart Hsome Hin Hid.
  destruct (require_teacher_authorized _ _ Hauth) as [t Ht].
  destruct (find_one_is_Some _ _ _ Hin Hid) as [d' Hd'].
  unfold update_announcement. unfold_monad. rewrite Ht, Hoid. simpl.
  destruct message as [m|], expiration_date as [e|], start_date as [s|]; simpl;
    try (destruct (Hexp e eq_refl) as [dt ->]; simpl);
    try (destruct (Hstart s eq_refl) as [sdt ->]; simpl);
    try (by destruct Hsome as [[? [=]]|[[? [=]]|[? [=]]]]);
    (case_decide as Hempty;
       [by apply (f_equal (λ m : doc, dom m)) in Hempty; set_solver|]);
    (match goal with
     | |- context [update_one ?c ?v ?u] =>
         destruct (update_one_cases c v u)
           as [[Hnone _]|(i & old & Hi & Hold & -> & Hfind)];
           [by simplify_map_eq|congruence|]
     end);
    simpl; by eexists _, _.
Qed.

(** The cases in which [update] raises. *)
Lemma update_raises ann_id message expiration_date actor start_date st e st' :
  update_announcement ann_id message expiration_date actor start_date st
    = (Raise e, st') →
  Unauthorized e ∨ NotFound e ∨
  (InvalidInput e ∧
     (ObjectId ann_id = None ∨
      (∃ s, expiration_date = Some s ∧ fromisoformat s = None) ∨
      (∃ s, start_date = Some s ∧ fromisoformat s = None) ∨
      (message = None ∧ expiration_date = None ∧ start_date = None))).
Proof.
  unfold update_announcement. unfold_monad.
  destruct (_require_teacher actor st) as [[t|e0] st1] eqn:Hreq.
  2: { intros [= <- <-]. left. by eapply require_teacher_raises. }
  apply require_teacher_state in Hreq as ->.
  destruct (ObjectId ann_id) as [oid|]; simpl.
  2: { intros [= <- <-]. right; right. split; [by eexists|by left]. }
  destruct message as [m|], expiration_date as [ex|], start_date as [s|]; simpl;
    try (destruct (fromisoformat ex) as [dt|] eqn:Hex; simpl;
         [|intros [= <- <-]; right; right; split; [by eexists|eauto 8]]);
    try (destruct (fromisoformat s) as [sdt|] eqn:Hs; simpl;
         [|intros [= <- <-]; right; right; split; [by eexists|eauto 8]]);
    (case_decide as Hempty;
       [intros [= <- <-]; right; right; split; [by eexists|];
        try (by apply (f_equal (λ m : doc, dom m)) in Hempty; set_solver);
        eauto 8|]);
    (match goal with
     | |- context [update_one ?c ?v ?u] =>
         destruct (update_one_cases c v u)
           as [[Hnone ->]|(i & old & Hi & Hold & -> & Hfind)];
           [by simplify_map_eq| |]
     end); simpl; try done;
    intros [= <- <-]; right; left; by eexists.
Qed.
End runs.

Example parse_ymd_time_forms :
  parse_ymd_time "2024-09-30" = parse_ymd "2024-09-30" ∧
  parse_ymd_time "2024-09-30T10:00:00"
    = Some (datetime.Datetime (date.Date 2024 9 30) 10 0 0 0) ∧
  parse_ymd_time "2024-09-30 23:59"
    = Some (datetime.Datetime (date.Date 2024 9 30) 23 59 0 0) ∧
  parse_ymd_time "2024-09-30T24:00:00" = None ∧
  parse_ymd_time "2024-13-40" = None ∧
  parse_ymd_time "2024-09-30T" = None.
Proof. by vm_compute. Qed.

(** C6 as stated fails on a string that is no date in YYYY-MM-DD form
    and that [datetime.fromisoformat] takes, a date followed by a time:
    [create] by an authorized actor returns and stores the announcement,
    with the date alone as its expiration_date. *)
Lemma C6_date_with_time_accepted :
  authorized sample_db (Some "mrivera") ∧
  parse_ymd "2024-09-30T10:00:00" = None ∧
  ∃ r st' (d : doc),
    @create_announcement iso_datetimes june_15 fresh_id "Picnic"
      "2024-09-30T10:00:00" (Some "mrivera") None sample_db = (Return r, st') ∧
    announcements_collection st' = announcements_collection sample_db ++ [d] ∧
    d !! "expiration_date" = Some (VStr "2024-09-30").
Proof.
  assert (authorized sample_db (Some "mrivera")) as Hauth.
  { exists "mrivera", (teacher "mrivera").
    split_and!; [reflexivity|discriminate|left|reflexivity]. }
  split_and!; [done|by vm_compute|].
  destruct (@create_runs iso_datetimes june_15 fresh_id "Picnic"
              "2024-09-30T10:00:00" (Some "mrivera") None sample_db
              (datetime.Datetime (date.Date 2024 9 30) 10 0 0 0))
    as (r & st' & Hrun); [done|by vm_compute|done|by vm_compute|].
  exists r, st'.
  apply (@create_returns iso_datetimes) in Hrun as Hshape.
  destruct Hshape as (dt & d & _ & Hdt & _ & _ & _ & Hexp & _ & _ & -> & _).
  exists d. split_and!; [done..|].
  rewrite Hexp. vm_compute in Hdt. injection Hdt as <-. by vm_compute.
Qed.

(** C10: [update] checks no ordering between the two dates. Whenever two
    strings parse to dates, one strictly before the other, a state
    reached by a valid [create] admits an authorized [update] of the
    start_date alone that returns a record whose start_date is strictly
    after its expiration_date, and one admits such an [update] of the
    expiration_date alone. And [update] raises InvalidInput only for an
    identifier that does not parse, a date provided that does not parse,
    or a call that provides no field. *)
Theorem C10_update_no_ordering_check `{DatetimeLib} `{BsonLib} :
  (∀ (utcnow : datetime.t) (teachers : list doc) (actor message early late hex : string)
     (early_dt late_dt : datetime.t) (oid : object_id),
     authorized (Db [] teachers) (Some actor) →
     ObjectId hex = Some oid →
     fromisoformat early = Some early_dt →
     fromisoformat late = Some late_dt →
     date.lt (datetime.date early_dt) (datetime.date late_dt) →
     (∃ st r st', reachable st ∧
        update_announcement hex None None (Some actor) (Some late) st
          = (Return r, st') ∧
        r !! "start_date" = Some (VStr late) ∧
        r !! "expiration_date" =
          Some (VStr (date.isoformat (datetime.date early_dt)))) ∧
     (∃ st r st', reachable st ∧
        update_announcement hex None (Some early) (Some actor) None st
          = (Return r, st') ∧
        r !! "start_date" = Some (VStr late) ∧
        r !! "expiration_date" =
          Some (VStr (date.isoformat (datetime.date early_dt))))) ∧
  (∀ (ann_id : string) (message expiration_date actor start_date : option string)
     (st st' : db) (e : exn),
     update_announcement ann_id message expiration_date actor start_date st
       = (Raise e, st') →
     InvalidInput e →
     ObjectId ann_id = None ∨
     (∃ s, expiration_date = Some s ∧ fromisoformat s = None) ∨
     (∃ s, start_date = Some s ∧ fromisoformat s = None) ∨
     (message = None ∧ expiration_date = None ∧ start_date = None)).
Proof.
  split.
  - intros utcnow teachers actor message early late hex early_dt late_dt oid
      Hauth Hoid Hearly Hlate Hlt.
    split.
    + destruct (create_runs utcnow oid message early (Some actor) None
                  (Db [] teachers) early_dt) as (r0 & st & Hcreate); try done.
      pose proof (reachable_create _ utcnow oid message early (Some actor) None
                    (reachable_empty teachers)) as Hreach.
      rewrite Hcreate in Hreach. simpl in Hreach.
      apply create_returns in Hcreate
        as (dt & d & _ & Hdt & Hid & _ & _ & Hexp & _ & _ & -> & _).
      simpl in *. simplify_eq.
      destruct (update_runs hex None None (Some actor) (Some late)
                  (Db [d] teachers) oid d) as (r & st' & Hupd);
        try done; [by intros ? [= <-]; eexists|eauto|by left|].
      exists (Db [d] teachers), r, st'. split_and!; [done..| |].
      all: apply update_returns in Hupd
        as (oid' & upd & i & old & _ & Hdom & _ & _ & Hstart & Hi & _ & _ & ->).
      all: destruct i; simplify_eq/=.
      * rewrite to_dict_lookup by done.
        by apply lookup_union_Some_l, Hstart.
      * rewrite to_dict_lookup by done. rewrite lookup_union_r; [done|].
        destruct (upd !! "expiration_date") eqn:Hu; [|done].
        destruct (Hdom "expiration_date") as [[? _]|[[_ [? [=]]]|[? _]]]; done.
    + destruct (create_runs utcnow oid message late (Some actor) (Some late)
                  (Db [] teachers) late_dt) as (r0 & st & Hcreate); try done.
      { intros ? [= <-]. exists late_dt. split; [done|apply date_lt_irrefl]. }
      pose proof (reachable_create _ utcnow oid message late (Some actor)
                    (Some late) (reachable_empty teachers)) as Hreach.
      rewrite Hcreate in Hreach. simpl in Hreach.
      apply create_returns in Hcreate
        as (dt & d & _ & Hdt & Hid & _ & Hst & _ & _ & _ & -> & _).
      simpl in *.
      destruct (update_runs hex None (Some early) (Some actor) None
                  (Db [d] teachers) oid d) as (r & st' & Hupd);
        try done; [by intros ? [= <-]; eexists|eauto|by left|].
      exists (Db [d] teachers), r, st'. split_and!; [done..| |].
      all: apply update_returns in Hupd
        as (oid' & upd & i & old & _ & Hdom & _ & Hexp & _ & Hi & _ & _ & ->).
      all: destruct i; simplify_eq/=.
      * rewrite to_dict_lookup by done. rewrite lookup_union_r; [done|].
        destruct (upd !! "start_date") eqn:Hu; [|done].
        destruct (Hdom "start_date") as [[? _]|[[? _]|[_ [? [=]]]]]; done.
      * rewrite to_dict_lookup by done.
        destruct (Hexp early eq_refl) as (dt' & Hdt' & Hu). simplify_eq.
        by apply lookup_union_Some_l.
  - intros ann_id message expiration_date actor start_date st st' e Hrun Hinv.
    apply update_raises in Hrun as [[d ->]|[[d ->]|[_ Hcase]]]; [| |done].
    + by destruct Hinv.
    + by destruct Hinv.
Qed.

Lemma C10_update_no_ordering_check_witness :
  (∃ st r st', @reachable iso_dates hex_ids st ∧
     @update_announcement iso_dates hex_ids fresh_hex None None
       (Some "mrivera") (Some "2024-07-15") st = (Return r, st') ∧
     r !! "start_date" = Some (VStr "2024-07-15") ∧
     r !! "expiration_date" = Some (VStr "2024-06-30")) ∧
  (∃ st r st', @reachable iso_dates hex_ids st ∧
     @update_announcement iso_dates hex_ids fresh_hex None (Some "2024-06-30")
       (Some "mrivera") None st = (Return r, st') ∧
     r !! "start_date" = Some (VStr "2024-07-15") ∧
     r !! "expiration_date" = Some (VStr "2024-06-30")).
Proof.
  apply (proj1 (@C10_update_no_ordering_check iso_dates hex_ids)
           june_15 [teacher "mrivera"] "mrivera" "Picnic"
           "2024-06-30" "2024-07-15" fresh_hex
           (datetime.midnight (date.Date 2024 6 30))
           (datetime.midnight (date.Date 2024 7 15)) fresh_id).
  - exists "mrivera", (teacher "mrivera").
    split_and!; [reflexivity|discriminate|left|reflexivity].
  - reflexivity.
  - reflexivity.
  - reflexivity.
  - vm_compute. right. split; [reflexivity|]. left. lia.
Defined.

(** * Further properties of the router *)

(** ** Views and listings *)

(** X1: the API view never carries the key ["_id"]; on a document that is
    not empty it carries under ["id"] the text of the document's ["_id"]
    (whatever the document held under ["id"] itself, and the text [None]
    when there is no ["_id"]), and every other field as it is. *)
Theorem to_dict_contract (d : doc) :
  _to_dict d !! "_id" = None ∧
  (d ≠ ∅ → _to_dict d !! "id" = Some (VStr (py_str (get d "_id")))) ∧
  (d ≠ ∅ → d !! "_id" = None → _to_dict d !! "id" = Some (VStr "None")) ∧
  (∀ k, k ≠ "id" → k ≠ "_id" → _to_dict d !! k = d !! k).
Proof.
  split_and!.
  - unfold _to_dict. case_decide; [done|].
    by rewrite lookup_insert_ne, lookup_delete_eq.
  - apply to_dict_id.
  - intros Hd Hid. rewrite to_dict_id by done. unfold get. by rewrite Hid.
  - intros k. apply to_dict_lookup.
Qed.

(** X2: the full listing leaves the database as it is and returns the
    views of all stored announcements, each as often as it is stored:
    nothing is filtered and nothing is added. *)
Theorem list_announcements_complete (st : db) :
  ∃ out, list_announcements st = (Return out, st) ∧
         out ≡ₚ _to_dict <$> announcements_collection st.
Proof.
  eexists. split; [apply list_announcements_returns|].
  unfold find_sorted. by rewrite stable_sort_perm.
Qed.

Section listing_facts.
Context `{DatetimeLib}.

Lemma active_loop_sublist now (c out : list doc) :
  ∃ kept, foldl (active_step now) out c = out ++ (_to_dict <$> kept) ∧
          kept `sublist_of` c.
Proof.
  revert out. induction c as [|a c IH]; intros out; simpl.
  - exists []. by rewrite app_nil_r.
  - destruct (active_step_cases now out a) as [[_ ->]|[_ ->]].
    + destruct (IH (out ++ [_to_dict a])) as (kept & -> & Hsub).
      exists (a :: kept). rewrite <-app_assoc. split; [done|].
      by apply sublist_skip.
    + destruct (IH out) as (kept & -> & Hsub).
      exists kept. split; [done|]. by apply sublist_cons.
Qed.

(** X3: the active listing is drawn from the full listing: its records
    are records of the full listing, none more often than there. *)
Theorem active_within_all (utcnow : datetime.t) (st : db) :
  ∃ active all,
    active_announcements utcnow st = (Return active, st) ∧
    list_announcements st = (Return all, st) ∧
    active ⊆+ all.
Proof.
  destruct (active_announcements_returns utcnow st) as (out & Hrun & Hperm & _).
  destruct (list_announcements_complete st) as (all & Hall & Hpall).
  exists out, all. split_and!; [done..|].
  rewrite Hperm, Hpall.
  destruct (active_loop_sublist (datetime.date utcnow)
              (announcements_collection st) []) as (kept & -> & Hsub).
  simpl. apply sublist_submseteq. by apply fmap_sublist.
Qed.
End listing_facts.

(** ** Outcomes of the mutating endpoints *)

Section outcome_facts.
Context `{DatetimeLib} `{BsonLib}.

(** X4: the credential check returns exactly for an authorized actor; it
    then returns a teacher document whose ["_id"] is the username, and in
    every case it leaves the database as it is. *)
Theorem require_teacher_iff (st : db) (actor : option string) :
  ((∃ t, _require_teacher actor st = (Return t, st)) ↔ authorized st actor) ∧
  (∀ t st', _require_teacher actor st = (Return t, st') →
     t ∈ teachers_collection st ∧ t !! "_id" = Some (of_optional actor)) ∧
  (∀ o st', _require_teacher actor st = (o, st') → st' = st).
Proof.
  split_and!.
  - split; [|apply require_teacher_authorized].
    intros [t Ht]. by apply require_teacher_returns in Ht as [? _].
  - intros t st'. unfold _require_teacher.
    destruct (truthy (of_optional actor)); simpl; [|done].
    unfold_monad. destruct (find_one _ _) as [d|] eqn:Hfind; [|done].
    case_decide; [done|]. intros [= <- <-]. by apply find_one_Some.
  - intros o st'. apply require_teacher_state.
Qed.

Lemma authorized_cases (st : db) (actor : option string) :
  (authorized st actor ∧ ∃ t, _require_teacher actor st = (Return t, st)) ∨
  (¬ authorized st actor ∧
     ∃ e, _require_teacher actor st = (Raise e, st) ∧ Unauthorized e).
Proof.
  destruct (_require_teacher actor st) as [[t|e] st'] eqn:Hreq.
  - apply require_teacher_returns in Hreq as Hst. destruct Hst as [Hauth ->].
    left. split; [done|by eexists].
  - right. pose proof (require_teacher_state _ _ _ _ Hreq) as ->.
    split.
    + intros Hauth. apply require_teacher_authorized in Hauth as [t Ht].
      congruence.
    + exists e. split; [done|]. by eapply require_teacher_raises.
Qed.

Lemma start_accepted_cases (start_date : option string) (exp_date : date.t) :
  start_accepted start_date exp_date ∨
  ∃ s, start_date = Some s ∧ s ≠ "" ∧
       (fromisoformat s = None ∨
        ∃ dt, fromisoformat s = Some dt ∧ date.lt exp_date (datetime.date dt)).
Proof.
  unfold start_accepted. destruct start_date as [s|]; [|left; left; done].
  destruct (decide (s = "")) as [->|Hs]; [left; right; left; done|].
  destruct (fromisoformat s) as [dt|] eqn:Hdt; [|right; eauto].
  destruct (decide (date.lt exp_date (datetime.date dt))); [right; eauto 8|].
  left. right; right. eauto.
Qed.

(** X5: the outcomes of [create], in the order of its checks. An actor
    that is not authorized gets Unauthorized; then an expiration_date
    that does not parse gets InvalidInput; then a start_date that is
    neither absent nor empty, and does not parse or parses to a date
    after the expiration date, gets InvalidInput; then a generated
    identifier that is already stored gets the store's duplicate-key
    error; in each of these cases the database is left as it is.
    Otherwise [create] returns. *)
Theorem create_outcomes (utcnow : datetime.t) (new_id : object_id)
    (message expiration_date : string) (actor start_date : option string)
    (st : db) :
  let run := create_announcement utcnow new_id message expiration_date
               actor start_date st in
  (¬ authorized st actor ∧ ∃ e, run = (Raise e, st) ∧ Unauthorized e) ∨
  (authorized st actor ∧ fromisoformat expiration_date = None ∧
     ∃ e, run = (Raise e, st) ∧ InvalidInput e) ∨
  (authorized st actor ∧
     ∃ exp_dt, fromisoformat expiration_date = Some exp_dt ∧
       ((¬ start_accepted start_date (datetime.date exp_dt) ∧
           ∃ e, run = (Raise e, st) ∧ InvalidInput e) ∨
        (start_accepted start_date (datetime.date exp_dt) ∧
           is_Some (find_one (announcements_collection st) (VObjectId new_id)) ∧
           run = (Raise DuplicateKeyError, st)) ∨
        (start_accepted start_date (datetime.date exp_dt) ∧
           find_one (announcements_collection st) (VObjectId new_id) = None ∧
           ∃ r st', run = (Return r, st')))).
Proof.
  intros run. subst run.
  destruct (authorized_cases st actor) as [[Hauth [t Ht]]|[Hno (e & He & Hun)]].
  2: { left. split; [done|]. exists e. split; [|done].
       unfold create_announcement. unfold_monad. by rewrite He. }
  right. unfold create_announcement. unfold_monad. rewrite Ht.
  destruct (fromisoformat expiration_date) as [exp_dt|] eqn:Hexp; simpl.
  2: { left. split_and!; [done..|]. eexists. split; [done|by eexists]. }
  right. split; [done|]. exists exp_dt. split; [done|].
  destruct (start_accepted_cases start_date (datetime.date exp_dt))
    as [Hacc|(s & -> & Hs & Hbad)].
  - right.
    assert (∀ st0 : db,
      (if truthy (of_optional start_date)
       then λ st1 : db,
         let (o, st'0) :=
           match parse_date (of_optional start_date) with
           | Some a => mret a
           | None => raise (HTTPException 400
                        "Invalid start_date format. Use YYYY-MM-DD")
           end st1 in
         match o with
         | Return a =>
             (if bool_decide (date.lt (datetime.date exp_dt) a)
              then λ st2 : db,
                (Raise (HTTPException 400
                   "start_date cannot be after expiration_date"), st2)
              else λ st2 : db, (Return (), st2)) st'0
         | Raise e => (Raise e, st'0)
         end
       else λ st1 : db, (Return (), st1)) st0 = (Return (), st0)) as ->.
    { intros st0. destruct Hacc as [->|[->|(s & dt & -> & Hdt & Hle)]]; try done.
      simpl. rewrite Hdt. simpl.
      assert (s ≠ "") as Hs.
      { intros ->. by rewrite fromisoformat_empty in Hdt. }
      apply String.eqb_neq in Hs. rewrite Hs. simpl. unfold_monad.
      by rewrite bool_decide_eq_false_2. }
    rewrite insert_one_fresh by by simplify_map_eq.
    case_decide as Hdup.
    + left. done.
    + right. split_and!; [done| |by eexists _, _].
      by destruct (find_one _ _); [destruct Hdup|].
  - left. split.
    + intros [[=]|[[= ->]|(s' & dt & [= <-] & Hdt & Hle)]]; [done|].
      destruct Hbad as [Hnone|(dt' & Hdt' & Hlt)]; [congruence|].
      by simplify_eq.
    + simpl. apply String.eqb_neq in Hs. rewrite Hs. simpl.
      destruct Hbad as [->|(dt & -> & Hlt)]; simpl.
      * eexists. split; [done|by eexists].
      * rewrite bool_decide_eq_true_2 by done.
        eexists. split; [done|by eexists].
Qed.
End outcome_facts.

Lemma find_one_first (c : list doc) v :
  find_one c v = None ∨ ∃ i d, first_with_id c v i d ∧ find_one c v = Some d.
Proof.
  unfold find_one, first_with_id. induction c as [|a c IH]; simpl; [by left|].
  destruct (has_id v a) eqn:Ha.
  - right. exists 0, a. apply has_id_true in Ha. split_and!; try done. lia.
  - destruct IH as [->|(i & d & (Hi & Hd & Hfirst) & ->)]; [by left|].
    right. exists (S i), d. split_and!; try done.
    intros [|j] d' Hj Hd'; simpl in *.
    + simplify_eq. intros Hid. apply has_id_true in Hid. congruence.
    + apply (Hfirst j); [lia|done].
Qed.

Lemma first_with_id_unique (c : list doc) v i d i' d' :
  first_with_id c v i d → first_with_id c v i' d' → i = i' ∧ d = d'.
Proof.
  intros (Hi & Hd & Hfirst) (Hi' & Hd' & Hfirst').
  assert (i = i') as <-.
  { destruct (Nat.lt_trichotomy i i') as [Hlt|[?|Hlt]]; [|done|].
    - by destruct (Hfirst' i d Hlt Hi).
    - by destruct (Hfirst i' d' Hlt Hi'). }
  split; [done|congruence].
Qed.

(** [delete_one] removes the first document with the identifier. *)
Lemma delete_one_first (c : list doc) v :
  (find_one c v = None ∧ delete_one c v = (c, 0)) ∨
  (∃ i d, first_with_id c v i d ∧ delete_one c v = (delete i c, 1)).
Proof.
  unfold find_one, first_with_id. induction c as [|a c IH]; simpl; [by left|].
  destruct (has_id v a) eqn:Ha.
  - right. exists 0, a. apply has_id_true in Ha. split_and!; try done. lia.
  - destruct IH as [[-> ->]|(i & d & (Hi & Hd & Hfirst) & ->)]; [by left|].
    right. exists (S i), d. split_and!; try done.
    intros [|j] d' Hj Hd'; simpl in *.
    + simplify_eq. intros Hid. apply has_id_true in Hid. congruence.
    + apply (Hfirst j); [lia|done].
Qed.

(** [update_one] overwrites the first document with the identifier. *)
Lemma update_one_first (c : list doc) v (upd : doc) :
  (find_one c v = None ∧ update_one c v upd = (c, 0)) ∨
  (∃ i d, first_with_id c v i d ∧
          update_one c v upd = (<[i := upd ∪ d]> c, 1)).
Proof.
  unfold find_one, first_with_id. induction c as [|a c IH]; simpl; [by left|].
  destruct (has_id v a) eqn:Ha.
  - right. exists 0, a. apply has_id_true in Ha. split_and!; try done. lia.
  - destruct IH as [[-> ->]|(i & d & (Hi & Hd & Hfirst) & ->)]; [by left|].
    right. exists (S i), d. split_and!; try done.
    intros [|j] d' Hj Hd'; simpl in *.
    + simplify_eq. intros Hid. apply has_id_true in Hid. congruence.
    + apply (Hfirst j); [lia|done].
Qed.

Section delete_facts.
Context `{BsonLib}.

(** X6: the outcomes of [delete], in the order of its checks: an actor
    that is not authorized gets Unauthorized, then an identifier that
    does not parse gets InvalidInput, then an identifier that no stored
    announcement carries gets NotFound, each with the database left as
    it is; otherwise [delete] returns its confirmation, and the
    database has lost one document, the first that carries the
    identifier, all others staying in their order. *)
Theorem delete_outcomes (ann_id : string) (actor : option string) (st : db) :
  let run := delete_announcement ann_id actor st in
  let c := announcements_collection st in
  (¬ authorized st actor ∧ ∃ e, run = (Raise e, st) ∧ Unauthorized e) ∨
  (authorized st actor ∧ ObjectId ann_id = None ∧
     ∃ e, run = (Raise e, st) ∧ InvalidInput e) ∨
  (authorized st actor ∧
     ∃ oid, ObjectId ann_id = Some oid ∧
       ((find_one c (VObjectId oid) = None ∧
           ∃ e, run = (Raise e, st) ∧ NotFound e) ∨
        (∃ i d, first_with_id c (VObjectId oid) i d ∧
           run = (Return {["message" := VStr "Announcement deleted"]},
                  Db (delete i c) (teachers_collection st))))).
Proof.
  intros run c. subst run c.
  destruct (authorized_cases st actor) as [[Hauth [t Ht]]|[Hno (e & He & Hun)]].
  2: { left. split; [done|]. exists e. split; [|done].
       unfold delete_announcement. unfold_monad. by rewrite He. }
  right. unfold delete_announcement. unfold_monad. rewrite Ht.
  destruct (ObjectId ann_id) as [oid|]; simpl.
  2: { left. split_and!; [done..|]. eexists. split; [done|by eexists]. }
  right. split; [done|]. exists oid. split; [done|].
  destruct (delete_one_first (announcements_collection st) (VObjectId oid))
    as [[Hnone ->]|(i & d & Hfirst & ->)]; simpl.
  - left. split; [done|]. destruct st. eexists. split; [done|by eexists].
  - right. by exists i, d.
Qed.
End delete_facts.

Lemma find_one_insert_first (c : list doc) v i (d new : doc) :
  first_with_id c v i d → new !! "_id" = Some v →
  find_one (<[i := new]> c) v = Some new.
Proof.
  unfold find_one. intros (Hi & Hd & Hfirst) Hnew. revert i Hi Hfirst.
  induction c as [|a c IH]; intros [|i] Hi Hfirst; simplify_eq/=.
  - by rewrite (proj2 (has_id_true v new) Hnew).
  - assert (has_id v a = false) as ->.
    { destruct (has_id v a) eqn:Ha; [|done]. apply has_id_true in Ha.
      by destruct (Hfirst 0 a); [lia|..]. }
    apply IH; [done|]. intros j d' Hj Hd'. apply (Hfirst (S j)); [lia|done].
Qed.

(** Proves that a call provides some field. *)
Ltac some_field :=
  first [left; by eexists | right; left; by eexists | right; right; by eexists].

Section update_facts.
Context `{DatetimeLib} `{BsonLib}.

(** X7: the outcomes of [update], in the order of its checks: an actor
    that is not authorized gets Unauthorized, then an identifier that
    does not parse gets InvalidInput, then a provided date that does not
    parse gets InvalidInput, then a call that provides no field gets
    InvalidInput, then an identifier that no stored announcement
    carries gets NotFound, each with the database left as it is;
    otherwise [update] returns the view of the document that replaces,
    in its place, the first document that carries the identifier. *)
Theorem update_outcomes (ann_id : string)
    (message expiration_date actor start_date : option string) (st : db) :
  let run := update_announcement ann_id message expiration_date actor
               start_date st in
  let c := announcements_collection st in
  (¬ authorized st actor ∧ ∃ e, run = (Raise e, st) ∧ Unauthorized e) ∨
  (authorized st actor ∧ ObjectId ann_id = None ∧
     ∃ e, run = (Raise e, st) ∧ InvalidInput e) ∨
  (authorized st actor ∧
     ∃ oid, ObjectId ann_id = Some oid ∧
       ((¬ dates_parse expiration_date start_date ∧
           ∃ e, run = (Raise e, st) ∧ InvalidInput e) ∨
        (dates_parse expiration_date start_date ∧
           message = None ∧ expiration_date = None ∧ start_date = None ∧
           ∃ e, run = (Raise e, st) ∧ InvalidInput e) ∨
        (dates_parse expiration_date start_date ∧
           (is_Some message ∨ is_Some expiration_date ∨ is_Some start_date) ∧
           find_one c (VObjectId oid) = None ∧
           ∃ e, run = (Raise e, st) ∧ NotFound e) ∨
        (dates_parse expiration_date start_date ∧
           (is_Some message ∨ is_Some expiration_date ∨ is_Some start_date) ∧
           ∃ i d new, first_with_id c (VObjectId oid) i d ∧
             new !! "_id" = Some (VObjectId oid) ∧
             run = (Return (_to_dict new),
                    Db (<[i := new]> c) (teachers_collection st))))).
Proof.
  intros run c. subst run c.
  destruct (authorized_cases st actor) as [[Hauth [t Ht]]|[Hno (e & He & Hun)]].
  2: { left. split; [done|]. exists e. split; [|done].
       unfold update_announcement. unfold_monad. by rewrite He. }
  right. unfold update_announcement. unfold_monad. rewrite Ht.
  destruct (ObjectId ann_id) as [oid|]; simpl.
  2: { left. split_and!; [done..|]. eexists. split; [done|by eexists]. }
  right. split; [done|]. exists oid. split; [done|].
  destruct message as [m|], expiration_date as [ex|], start_date as [s|]; simpl;
    try (destruct (fromisoformat ex) as [dt|] eqn:Hex; simpl);
    try (destruct (fromisoformat s) as [sdt|] eqn:Hs; simpl).
  all: try (left; split;
              [intros [Hd1 Hd2];
               first [destruct (Hd1 _ eq_refl) as [? ?]; congruence
                     |destruct (Hd2 _ eq_refl) as [? ?]; congruence]
              |eexists; split; [done|by eexists]]; fail).
  all: right.
  all: match goal with
       | |- (dates_parse ?e ?s ∧ _) ∨ _ =>
           assert (dates_parse e s) as Hdates
             by (split; intros ? ?; simplify_eq; eauto)
       end.
  all: case_decide as Hempty;
         [first [by apply (f_equal (λ m : doc, dom m)) in Hempty; set_solver
                |left; do 4 (split; [done|]); eexists; split; [done|by eexists]]
         |try done; right].
  all: match goal with
       | |- context [update_one ?c ?v ?u] =>
           destruct (update_one_first c v u)
             as [[Hnone ->]|(i & d & Hfirst & ->)];
           [left; split; [done|]; split; [some_field|]; split; [done|];
            destruct st; eexists; split; [done|by eexists]
           |right; split; [done|]; split; [some_field|];
            exists i, d, (u ∪ d);
            assert ((u ∪ d) !! "_id" = Some v) as Hid
              by (rewrite lookup_union_r by (by simplify_map_eq);
                  apply Hfirst);
            simpl; rewrite (find_one_insert_first _ _ _ _ _ Hfirst Hid);
            done]
       end.
Qed.
End update_facts.

(** ** Failures and effects *)

Section effect_facts.
Context `{DatetimeLib} `{BsonLib}.

Lemma create_raises_state utcnow new_id message expiration_date actor start_date
    st e st' :
  create_announcement utcnow new_id message expiration_date actor start_date st
    = (Raise e, st') → st' = st.
Proof.
  unfold create_announcement. unfold_monad.
  destruct (_require_teacher actor st) as [[t|e0] st1] eqn:Hreq;
    apply require_teacher_state in Hreq as ->; [|by intros [= _ <-]].
  destruct (fromisoformat expiration_date) as [exp_dt|]; simpl;
    [|by intros [= _ <-]].
  match goal with
  | |- (let (_, _) := ?blk st in _) = _ → _ =>
      destruct (blk st) as [[[]|e1] st1] eqn:Hblk
  end.
  all: assert (st1 = st) as ->
    by (revert Hblk; unfold_monad; intros Hblk;
        repeat case_match; by simplify_eq/=).
  - rewrite insert_one_fresh by by simplify_map_eq.
    case_decide; [by intros [= _ <-]|done].
  - by intros [= _ <-].
Qed.

Lemma update_raises_state ann_id message expiration_date actor start_date
    st e st' :
  update_announcement ann_id message expiration_date actor start_date st
    = (Raise e, st') → st' = st.
Proof.
  unfold update_announcement. unfold_monad.
  destruct (_require_teacher actor st) as [[t|e0] st1] eqn:Hreq;
    apply require_teacher_state in Hreq as ->; [|by intros [= _ <-]].
  destruct (ObjectId ann_id) as [oid|]; simpl; [|by intros [= _ <-]].
  destruct message as [m|], expiration_date as [ex|], start_date as [s|]; simpl;
    try (destruct (fromisoformat ex) as [dt|]; simpl; [|by intros [= _ <-]]);
    try (destruct (fromisoformat s) as [sdt|]; simpl; [|by intros [= _ <-]]);
    (case_decide; [by intros [= _ <-]|]);
    (match goal with
     | |- context [update_one ?c ?v ?u] =>
         destruct (update_one_cases c v u)
           as [[_ ->]|(i & old & _ & _ & -> & _)]; [by simplify_map_eq|..]
     end); simpl; try done; intros [= _ <-]; by destruct st.
Qed.

Lemma delete_raises_state ann_id actor st e st' :
  delete_announcement ann_id actor st = (Raise e, st') → st' = st.
Proof.
  unfold delete_announcement. unfold_monad.
  destruct (_require_teacher actor st) as [[t|e0] st1] eqn:Hreq;
    apply require_teacher_state in Hreq as ->; [|by intros [= _ <-]].
  destruct (ObjectId ann_id) as [oid|]; simpl; [|by intros [= _ <-]].
  destruct (delete_one_cases (announcements_collection st) (VObjectId oid))
    as [->|[c' ->]]; simpl; [|done].
  intros [= _ <-]. by destruct st.
Qed.

(** X8: a mutating request that raises, whatever the error, leaves the
    database as it was: nothing is applied in part. *)
Theorem failures_leave_database (st st' : db) (e : exn) :
  (∀ utcnow new_id message expiration_date actor start_date,
     create_announcement utcnow new_id message expiration_date actor
       start_date st = (Raise e, st') → st' = st) ∧
  (∀ ann_id message expiration_date actor start_date,
     update_announcement ann_id message expiration_date actor start_date st
       = (Raise e, st') → st' = st) ∧
  (∀ ann_id actor,
     delete_announcement ann_id actor st = (Raise e, st') → st' = st).
Proof.
  split_and!; intros.
  - by eapply create_raises_state.
  - by eapply update_raises_state.
  - by eapply delete_raises_state.
Qed.

(** A [create] that returns had a fresh identifier. *)
Lemma create_returns_fresh utcnow new_id message expiration_date actor
    start_date st r st' :
  create_announcement utcnow new_id message expiration_date actor start_date st
    = (Return r, st') →
  find_one (announcements_collection st) (VObjectId new_id) = None.
Proof.
  unfold create_announcement. unfold_monad.
  destruct (_require_teacher actor st) as [[t|e0] st1] eqn:Hreq;
    apply require_teacher_state in Hreq as ->; [|done].
  destruct (fromisoformat expiration_date) as [exp_dt|]; simpl; [|done].
  match goal with
  | |- (let (_, _) := ?blk st in _) = _ → _ =>
      destruct (blk st) as [[[]|e1] st1] eqn:Hblk; [|done]
  end.
  assert (st1 = st) as ->
    by (revert Hblk; unfold_monad; intros Hblk;
        repeat case_match; by simplify_eq/=).
  rewrite insert_one_fresh by by simplify_map_eq.
  case_decide as Hdup; [done|]. intros _.
  by destruct (find_one _ _); [destruct Hdup|].
Qed.

(** What a [delete] that returns did. *)
Lemma delete_returns ann_id actor st r st' :
  delete_announcement ann_id actor st = (Return r, st') →
  authorized st actor ∧
  ∃ oid i d, ObjectId ann_id = Some oid ∧
    first_with_id (announcements_collection st) (VObjectId oid) i d ∧
    st' = Db (delete i (announcements_collection st)) (teachers_collection st).
Proof.
  unfold delete_announcement. unfold_monad.
  destruct (_require_teacher actor st) as [[t|e0] st1] eqn:Hreq; [|done].
  apply require_teacher_returns in Hreq as [Hauth ->].
  destruct (ObjectId ann_id) as [oid|]; simpl; [|done].
  destruct (delete_one_first (announcements_collection st) (VObjectId oid))
    as [[_ ->]|(i & d & Hfirst & ->)]; simpl; [done|].
  intros [= _ <-]. split; [done|]. by exists oid, i, d.
Qed.

(** A [delete] of an identifier that nothing carries. *)
Lemma delete_not_found ann_id actor st oid :
  authorized st actor → ObjectId ann_id = Some oid →
  find_one (announcements_collection st) (VObjectId oid) = None →
  ∃ e, delete_announcement ann_id actor st = (Raise e, st) ∧ NotFound e.
Proof.
  intros Hauth Hoid Hnone.
  destruct (require_teacher_authorized _ _ Hauth) as [t Ht].
  unfold delete_announcement. unfold_monad. rewrite Ht, Hoid. simpl.
  destruct (delete_one_first (announcements_collection st) (VObjectId oid))
    as [[_ ->]|(i & d & (Hi & Hd & _) & _)]; simpl.
  - destruct st. eexists. split; [done|by eexists].
  - apply list_elem_of_lookup_2 in Hi.
    by destruct (find_one_None _ _ _ Hnone Hi).
Qed.

(** A [delete] of the identifier of a stored announcement returns. *)
Lemma delete_runs ann_id actor st oid (d : doc) :
  authorized st actor → ObjectId ann_id = Some oid →
  d ∈ announcements_collection st → d !! "_id" = Some (VObjectId oid) →
  ∃ r st', delete_announcement ann_id actor st = (Return r, st').
Proof.
  intros Hauth Hoid Hin Hid.
  destruct (require_teacher_authorized _ _ Hauth) as [t Ht].
  unfold delete_announcement. unfold_monad. rewrite Ht, Hoid. simpl.
  destruct (delete_one_first (announcements_collection st) (VObjectId oid))
    as [[Hnone _]|(i & d' & _ & ->)]; simpl.
  - by destruct (find_one_None _ _ _ Hnone Hin).
  - by eexists _, _.
Qed.
End effect_facts.

(** ** Invariants of the reachable states *)

Section invariant_facts.
Context `{DatetimeLib} `{BsonLib}.

Lemma unique_ids_snoc (c : list doc) (d : doc) v :
  unique_ids c → d !! "_id" = Some v → find_one c v = None →
  unique_ids (c ++ [d]).
Proof.
  unfold unique_ids. intros Hc Hd Hnone. rewrite fmap_app. simpl.
  apply NoDup_app. split_and!; [done| |apply NoDup_singleton].
  intros x Hx Hx'. apply list_elem_of_singleton in Hx' as ->.
  apply list_elem_of_fmap in Hx as (d' & Hd' & Hin). rewrite Hd in Hd'.
  by destruct (find_one_None _ _ _ Hnone Hin).
Qed.

Lemma unique_ids_insert (c : list doc) i (old new : doc) :
  unique_ids c → c !! i = Some old → new !! "_id" = old !! "_id" →
  unique_ids (<[i := new]> c).
Proof.
  unfold unique_ids. intros Hc Hi Hid. rewrite list_fmap_insert, Hid.
  rewrite list_insert_id; [done|]. by rewrite list_lookup_fmap, Hi.
Qed.

Lemma unique_ids_delete (c : list doc) i : unique_ids c → unique_ids (delete i c).
Proof.
  unfold unique_ids. intros Hc.
  refine (sublist_NoDup _ _ Hc _). apply fmap_sublist. apply sublist_delete.
Qed.

(** X9: in every state that the mutating endpoints reach from an empty
    collection, the announcements carry pairwise distinct identifiers,
    and each has the shape that [create] writes: an object id, a
    message, an expiration_date in the form that [date.isoformat]
    prints, a creation stamp, a creator that is not empty, and a
    start_date that is [None] or a string. *)
Theorem reachable_invariant (st : db) :
  reachable st →
  unique_ids (announcements_collection st) ∧
  Forall written_by_service (announcements_collection st).
Proof.
  induction 1 as
    [teachers
    |st utcnow new_id message expiration_date actor start_date _ [IHu IHw]
    |st ann_id message expiration_date actor start_date _ [IHu IHw]
    |st ann_id actor _ [IHu IHw]]; simpl.
  - split; [apply NoDup_nil_2|constructor].
  - destruct (create_announcement _ _ _ _ _ _ _) as [[r|e] st'] eqn:Hrun; simpl.
    2: { by apply create_raises_state in Hrun as ->. }
    pose proof (create_returns_fresh _ _ _ _ _ _ _ _ _ Hrun) as Hfresh.
    apply create_returns in Hrun
      as (exp_dt & d & Hauth & _ & Hid & Hmsg & Hstart & Hexp & Hat & Hby & -> & _).
    simpl. split; [by eapply unique_ids_snoc|].
    apply Forall_app. split; [done|]. apply Forall_singleton.
    destruct Hauth as (u & _ & -> & Hu & _).
    unfold written_by_service. split_and!; eauto.
  - destruct (update_announcement _ _ _ _ _ _) as [[r|e] st'] eqn:Hrun; simpl.
    2: { by apply update_raises_state in Hrun as ->. }
    apply update_returns in Hrun
      as (oid & upd & i & old & _ & Hdom & Hmsg & Hexp & Hstart & Hi & Hid & -> & _).
    simpl.
    assert (∀ k, ¬ provided message expiration_date start_date k →
              (upd ∪ old) !! k = old !! k) as Hframe.
    { intros k Hk. apply lookup_union_r.
      destruct (upd !! k) eqn:Hu; [|done]. destruct Hk. by apply Hdom. }
    assert (∀ k, k ≠ "message" → k ≠ "expiration_date" → k ≠ "start_date" →
              (upd ∪ old) !! k = old !! k) as Hother.
    { intros k ? ? ?. apply Hframe. intros [[? _]|[[? _]|[? _]]]; done. }
    split.
    { eapply unique_ids_insert; [done..|]. by apply Hother. }
    apply Forall_insert; [done|].
    pose proof (proj1 (Forall_lookup _ _) IHw i old Hi)
      as (Ho & Hm & He & Ha & Hb & Hs).
    unfold written_by_service. split_and!.
    + destruct Ho as [o Ho]. exists o. by rewrite Hother.
    + destruct message as [m|].
      * exists m. by apply lookup_union_Some_l, Hmsg.
      * rewrite Hframe; [done|]. intros [[_ [? [=]]]|[[? _]|[? _]]]; done.
    + destruct expiration_date as [e|].
      * destruct (Hexp e eq_refl) as (dt & _ & Hu).
        exists (datetime.date dt). by apply lookup_union_Some_l.
      * rewrite Hframe; [done|]. intros [[? _]|[[_ [? [=]]]|[? _]]]; done.
    + destruct Ha as [a Ha]. exists a. by rewrite Hother.
    + destruct Hb as (u & Hu & Hb). exists u. by rewrite Hother.
    + destruct start_date as [s|].
      * exists (Some s). apply lookup_union_Some_l. by apply Hstart.
      * rewrite Hframe; [done|]. intros [[? _]|[[? _]|[_ [? [=]]]]]; done.
  - destruct (delete_announcement _ _ _) as [[r|e] st'] eqn:Hrun; simpl.
    2: { by apply delete_raises_state in Hrun as ->. }
    apply delete_returns in Hrun as (_ & oid & i & d & _ & _ & ->). simpl.
    split; [by apply unique_ids_delete|].
    by apply Forall_delete.
Qed.
End invariant_facts.

(** ** Composition of the requests *)

Section composition_facts.
Context `{DatetimeLib} `{BsonLib}.

Lemma authorized_teachers (st st' : db) actor :
  teachers_collection st' = teachers_collection st →
  authorized st actor → authorized st' actor.
Proof. unfold authorized. by intros ->. Qed.

(** A [delete] by an authorized actor of an identifier that some stored
    announcement carries removes the first that carries it. *)
Lemma delete_first ann_id actor st oid i (d : doc) :
  authorized st actor → ObjectId ann_id = Some oid →
  first_with_id (announcements_collection st) (VObjectId oid) i d →
  delete_announcement ann_id actor st =
    (Return {["message" := VStr "Announcement deleted"]},
     Db (delete i (announcements_collection st)) (teachers_collection st)).
Proof.
  intros Hauth Hoid Hfirst.
  destruct (require_teacher_authorized _ _ Hauth) as [t Ht].
  unfold delete_announcement. unfold_monad. rewrite Ht, Hoid. simpl.
  destruct (delete_one_first (announcements_collection st) (VObjectId oid))
    as [[Hnone _]|(i' & d' & Hfirst' & ->)]; simpl.
  - destruct Hfirst as (Hi & Hd & _). apply list_elem_of_lookup_2 in Hi.
    by destruct (find_one_None _ _ _ Hnone Hi).
  - by destruct (first_with_id_unique _ _ _ _ _ _ Hfirst Hfirst') as [<- <-].
Qed.

(** X10: where the identifiers are pairwise distinct, a [delete] that
    returns leaves no document that carries the identifier, and the same
    [delete] once more fails with NotFound, changing nothing. *)
Theorem delete_twice_not_found (ann_id : string) (actor : option string)
    (st st' : db) (r : doc) :
  unique_ids (announcements_collection st) →
  delete_announcement ann_id actor st = (Return r, st') →
  (∀ oid d, ObjectId ann_id = Some oid → d ∈ announcements_collection st' →
     d !! "_id" ≠ Some (VObjectId oid)) ∧
  ∃ e, delete_announcement ann_id actor st' = (Raise e, st') ∧ NotFound e.
Proof.
  intros Huniq Hrun.
  apply delete_returns in Hrun as (Hauth & oid & i & d & Hoid & Hfirst & ->).
  destruct Hfirst as (Hi & Hd & _). simpl.
  assert (∀ d', d' ∈ delete i (announcements_collection st) →
            d' !! "_id" ≠ Some (VObjectId oid)) as Hgone.
  { intros d' Hin Hd'. apply list_elem_of_lookup in Hin as [j Hj].
    assert (∃ j', j' ≠ i ∧ announcements_collection st !! j' = Some d')
      as (j' & Hne & Hj').
    { destruct (decide (j < i)).
      - exists j. split; [lia|]. by rewrite list_lookup_delete_lt in Hj.
      - exists (S j). split; [lia|].
        by rewrite list_lookup_delete_ge in Hj by lia. }
    apply Hne. eapply (NoDup_lookup _ _ _ _ Huniq).
    - by rewrite list_lookup_fmap, Hj'; simpl; rewrite Hd'.
    - by rewrite list_lookup_fmap, Hi; simpl; rewrite Hd. }
  split.
  - intros oid' d' Hoid' Hin. rewrite Hoid in Hoid'. injection Hoid' as <-.
    by apply Hgone.
  - apply (delete_not_found _ _ _ oid); [done..|]. simpl.
    destruct (find_one _ _) as [d'|] eqn:Hfind; [|done].
    apply find_one_Some in Hfind as [Hin Hd']. by destruct (Hgone d').
Qed.

(** X11: a [create] that returns, followed by a [delete] of the
    identifier it generated by the same actor, gives back the database
    as it was before the two. *)
Theorem create_then_delete (utcnow : datetime.t) (new_id : object_id)
    (message expiration_date hex : string) (actor start_date : option string)
    (st st' : db) (r : doc) :
  ObjectId hex = Some new_id →
  create_announcement utcnow new_id message expiration_date actor start_date st
    = (Return r, st') →
  ∃ r', delete_announcement hex actor st' = (Return r', st).
Proof.
  intros Hoid Hrun.
  pose proof (create_returns_fresh _ _ _ _ _ _ _ _ _ Hrun) as Hfresh.
  apply create_returns in Hrun
    as (exp_dt & d & Hauth & _ & Hid & _ & _ & _ & _ & _ & -> & _).
  eexists. erewrite (delete_first hex actor _ new_id
                       (length (announcements_collection st)) d); [|done..|].
  - simpl. rewrite (delete_middle _ [] d), app_nil_r. by destruct st.
  - simpl. split_and!.
    + by rewrite lookup_app_r, Nat.sub_diag by lia.
    + done.
    + intros j d' Hj Hd'. rewrite lookup_app_l in Hd' by done.
      apply list_elem_of_lookup_2 in Hd'. by apply (find_one_None _ _ _ Hfresh).
Qed.
End composition_facts.

Section update_composition.
Context `{DatetimeLib} `{BsonLib}.

Lemma update_fields_no_id message expiration_date start_date :
  update_fields message expiration_date start_date !! "_id" = None.
Proof.
  unfold update_fields.
  destruct message, (expiration_date ≫= fromisoformat), start_date;
    by simplify_map_eq.
Qed.

(** An [update] by an authorized actor, with dates that parse and some
    field provided, merges its fields into the first document that
    carries the identifier. *)
Lemma update_first ann_id message expiration_date actor start_date st oid i
    (d : doc) :
  authorized st actor → ObjectId ann_id = Some oid →
  dates_parse expiration_date start_date →
  is_Some message ∨ is_Some expiration_date ∨ is_Some start_date →
  first_with_id (announcements_collection st) (VObjectId oid) i d →
  let new := update_fields message expiration_date start_date ∪ d in
  update_announcement ann_id message expiration_date actor start_date st =
    (Return (_to_dict new),
     Db (<[i := new]> (announcements_collection st)) (teachers_collection st)).
Proof.
  intros Hauth Hoid [Hexp Hstart] Hsome Hfirst new. subst new.
  destruct (require_teacher_authorized _ _ Hauth) as [t Ht].
  unfold update_announcement, update_fields. unfold_monad.
  rewrite Ht, Hoid. simpl.
  destruct message as [m|], expiration_date as [e|], start_date as [s|]; simpl;
    try (destruct (Hexp e eq_refl) as [dt ->]; simpl);
    try (destruct (Hstart s eq_refl) as [sdt ->]; simpl);
    try (by destruct Hsome as [[? [=]]|[[? [=]]|[? [=]]]]);
    (case_decide as Hempty;
       [by apply (f_equal (λ m : doc, dom m)) in Hempty; set_solver|]);
    (match goal with
     | |- context [update_one ?c ?v ?u] =>
         destruct (update_one_first c v u)
           as [[Hnone _]|(i' & d' & Hfirst' & ->)];
           [destruct Hfirst as (Hi & Hd & _);
            apply list_elem_of_lookup_2 in Hi;
            by destruct (find_one_None _ _ _ Hnone Hi)
           |destruct (first_with_id_unique _ _ _ _ _ _ Hfirst Hfirst')
              as [<- <-];
            assert ((u ∪ d) !! "_id" = Some v) as Hid
              by (rewrite lookup_union_r by (by simplify_map_eq);
                  apply Hfirst);
            simpl; by rewrite (find_one_insert_first _ _ _ _ _ Hfirst Hid)]
     end).
Qed.

(** What an [update] that returns did. *)
Lemma update_returns_first ann_id message expiration_date actor start_date
    st r st' :
  update_announcement ann_id message expiration_date actor start_date st
    = (Return r, st') →
  authorized st actor ∧
  dates_parse expiration_date start_date ∧
  (is_Some message ∨ is_Some expiration_date ∨ is_Some start_date) ∧
  ∃ oid i d, ObjectId ann_id = Some oid ∧
    first_with_id (announcements_collection st) (VObjectId oid) i d ∧
    r = _to_dict (update_fields message expiration_date start_date ∪ d) ∧
    st' = Db (<[i := update_fields message expiration_date start_date ∪ d]>
                (announcements_collection st)) (teachers_collection st).
Proof.
  unfold update_announcement, update_fields. unfold_monad.
  destruct (_require_teacher actor st) as [[t|e] st1] eqn:Hreq; [|done].
  apply require_teacher_returns in Hreq as [Hauth ->].
  destruct (ObjectId ann_id) as [oid|]; simpl; [|done].
  destruct message as [m|], expiration_date as [e|], start_date as [s|]; simpl;
    try (destruct (fromisoformat e) as [dt|] eqn:He; simpl; [|done]);
    try (destruct (fromisoformat s) as [sdt|] eqn:Hs; simpl; [|done]);
    (case_decide as Hempty; [done|]);
    try (by destruct Hempty);
    (match goal with
     | |- context [update_one ?c ?v ?u] =>
         destruct (update_one_first c v u)
           as [[_ ->]|(i & d & Hfirst & ->)]; [done|];
         assert ((u ∪ d) !! "_id" = Some v) as Hid
           by (rewrite lookup_union_r by (by simplify_map_eq); apply Hfirst);
         simpl; rewrite (find_one_insert_first _ _ _ _ _ Hfirst Hid)
     end);
    simpl; intros [= <- <-];
    (split; [done|]);
    (split; [split; intros ? ?; simplify_eq; eauto|]);
    (split; [some_field|]);
    exists oid, i, d; rewrite ?He; done.
Qed.

Lemma first_with_id_insert (c : list doc) v i (d new : doc) :
  first_with_id c v i d → new !! "_id" = Some v →
  first_with_id (<[i := new]> c) v i new.
Proof.
  intros (Hi & Hd & Hfirst) Hnew. split_and!; [|done|].
  - apply list_lookup_insert_eq. by eapply lookup_lt_Some.
  - intros j d' Hj Hd'. rewrite list_lookup_insert_ne in Hd' by lia.
    by eapply Hfirst.
Qed.

(** X12: [update] is idempotent: after an [update] that returns, the
    same [update] once more returns the same record and leaves the
    database as the first one made it. *)
Theorem update_idempotent (ann_id : string)
    (message expiration_date actor start_date : option string)
    (st st' : db) (r : doc) :
  update_announcement ann_id message expiration_date actor start_date st
    = (Return r, st') →
  update_announcement ann_id message expiration_date actor start_date st'
    = (Return r, st').
Proof.
  intros Hrun.
  apply update_returns_first in Hrun
    as (Hauth & Hdates & Hsome & oid & i & d & Hoid & Hfirst & -> & ->).
  set (u := update_fields message expiration_date start_date).
  assert ((u ∪ d) !! "_id" = Some (VObjectId oid)) as Hid.
  { rewrite lookup_union_r by apply update_fields_no_id. apply Hfirst. }
  rewrite (update_first ann_id message expiration_date actor start_date _
             oid i (u ∪ d)); [|done..|by apply (first_with_id_insert _ _ _ d)].
  fold u. simpl.
  assert (u ∪ (u ∪ d) = u ∪ d) as ->.
  { by rewrite (assoc_L (∪)), (idemp_L (∪)). }
  by rewrite list_insert_insert_eq.
Qed.

(** X15: the record that an [update] returns is, afterwards, a record of
    the full listing. *)
Theorem update_listed (ann_id : string)
    (message expiration_date actor start_date : option string)
    (st st' : db) (r : doc) :
  update_announcement ann_id message expiration_date actor start_date st
    = (Return r, st') →
  ∃ out, list_announcements st' = (Return out, st') ∧ r ∈ out.
Proof.
  intros Hrun.
  apply update_returns_first in Hrun
    as (_ & _ & _ & oid & i & d & _ & (Hi & _ & _) & -> & ->).
  eexists. split; [apply list_announcements_returns|]. simpl.
  apply list_elem_of_fmap_2. unfold find_sorted. rewrite stable_sort_perm.
  eapply list_elem_of_lookup_2.
  apply list_lookup_insert_eq. by eapply lookup_lt_Some.
Qed.
End update_composition.

Section create_composition.
Context `{DatetimeLib}.


(** X14: a created announcement and the active listing. When the
    library parses the expiration date that it printed back to the same
    date, the announcement that a [create] appended is in the active
    listing on a day exactly when its start date, if one was given and
    is not empty, is on or before that day, and the day is on or before
    its expiration date. *)
Theorem created_announcement_active (utcnow clock : datetime.t)
    (new_id : object_id) (message expiration_date : string)
    (actor start_date : option string) (st st' : db) (r : doc)
    (exp_dt : datetime.t) :
  create_announcement utcnow new_id message expiration_date actor start_date st
    = (Return r, st') →
  fromisoformat expiration_date = Some exp_dt →
  datetime.date <$> fromisoformat (date.isoformat (datetime.date exp_dt))
    = Some (datetime.date exp_dt) →
  ∃ (d : doc) out,
    announcements_collection st' = announcements_collection st ++ [d] ∧
    active_announcements clock st' = (Return out, st') ∧
    (_to_dict d ∈ out ↔
       (∀ s start_dt, start_date = Some s → fromisoformat s = Some start_dt →
          date.le (datetime.date start_dt) (datetime.date clock)) ∧
       date.le (datetime.date clock) (datetime.date exp_dt)).
Proof.
  intros Hrun Hexp Hround.
  apply create_returns in Hrun
    as (exp_dt' & d & _ & Hexp' & _ & _ & Hstart & Hexpd & _ & _ & -> & _).
  rewrite Hexp in Hexp'. injection Hexp' as <-.
  destruct (active_announcements_returns clock
              (Db (announcements_collection st ++ [d]) (teachers_collection st)))
    as (out & Hout & Hperm & _).
  exists d, out. split_and!; [done..|].
  assert (field_date d "expiration_date" = Some (datetime.date exp_dt)) as Hfexp.
  { unfold field_date, get. by rewrite Hexpd. }
  assert (field_date d "start_date" = parse_date (of_optional start_date))
    as Hfstart.
  { unfold field_date, get. by rewrite Hstart. }
  rewrite Hperm, elem_of_active_loop. simpl. split.
  - intros [Hnil|(b & _ & Hwin & Heq)]; [by apply not_elem_of_nil in Hnil|].
    symmetry in Heq. apply (to_dict_inj_window _ _ _ Heq) in Hwin.
    destruct Hwin as (ed & Hed & Hle & Hsd).
    rewrite Hfexp in Hed. injection Hed as <-. split; [|done].
    intros s start_dt -> Hs. apply Hsd. rewrite Hfstart. simpl. by rewrite Hs.
  - intros [Hsd Hle]. right. exists d. split_and!; [|..|done].
    + apply elem_of_app. right. by left.
    + exists (datetime.date exp_dt). split_and!; [done..|].
      intros sd. rewrite Hfstart. destruct start_date as [s|]; [|done].
      simpl. destruct (fromisoformat s) as [start_dt|] eqn:Hs; [|done].
      intros [= <-]. by eapply Hsd.
Qed.
End create_composition.

(** ** Order of the active listing *)

Section stability.
Context {A : Type} (R : relation A) `{!RelDecision R}.
Context (P : A → Prop) `{!∀ x, Decision (P x)}.

Lemma insert_le_filter x l :
  (∀ y, P x → P y → R x y) →
  filter P (insert_le R x l) = filter P (x :: l).
Proof.
  intros Hclass. induction l as [|y l IH]; simpl; [done|].
  case_decide as Hxy; [done|].
  rewrite filter_cons, IH, !filter_cons.
  destruct (decide (P x)) as [Hx|Hx]; [|done].
  destruct (decide (P y)) as [Hy|Hy]; [|done].
  destruct Hxy. by apply Hclass.
Qed.

(** A stable sort keeps the order among the elements of a class whose
    members are all below one another. *)
Lemma stable_sort_filter l :
  (∀ x y, P x → P y → R x y) →
  filter P (stable_sort R l) = filter P l.
Proof.
  intros Hclass. induction l as [|x l IH]; simpl; [done|].
  rewrite insert_le_filter by (intros; by apply Hclass).
  by rewrite !filter_cons, IH.
Qed.
End stability.

Section active_order.
Context `{DatetimeLib}.

(** X16: the final sort of the active listing is stable. The records of
    the listing that hold one and the same expiration_date stand in the
    order of the store: in that order they are a sublist of the views of
    the stored announcements. *)
Theorem active_order_stable (utcnow : datetime.t) (st : db) (s : string) :
  ∃ out, active_announcements utcnow st = (Return out, st) ∧
    filter (λ r : doc, r !! "expiration_date" = Some (VStr s)) out
      `sublist_of` (_to_dict <$> announcements_collection st).
Proof.
  set (kept := foldl (active_step (datetime.date utcnow)) []
                 (announcements_collection st)).
  assert (Forall (λ r : doc, ∃ s, sort_key r = VStr s) kept) as Hstr.
  { apply Forall_forall. intros r Hr.
    apply elem_of_active_loop in Hr as [Hr|(a & _ & Hwin & ->)];
      [by apply not_elem_of_nil in Hr|].
    apply in_window_expiration in Hwin as (s' & _ & Hs' & _).
    exists s'. unfold sort_key. by rewrite to_dict_lookup, Hs'. }
  pose proof (list_sort_strings sort_key kept Hstr) as Hsort.
  eexists. split.
  { unfold active_announcements, mbind, M_bind, gets; simpl.
    fold kept. by rewrite Hsort. }
  rewrite stable_sort_filter.
  - etrans; [apply sublist_filter|].
    destruct (active_loop_sublist (datetime.date utcnow)
                (announcements_collection st) []) as (kept' & Hkept & Hsub).
    subst kept. rewrite Hkept. simpl. by apply fmap_sublist.
  - intros x y Hx Hy. unfold sort_key. rewrite Hx, Hy. simpl. done.
Qed.
End active_order.

(** ** The further properties on the sample requests *)

Lemma sample_authorized : authorized sample_db (Some "mrivera").
Proof.
  exists "mrivera", (teacher "mrivera").
  split_and!; [reflexivity|discriminate|left|reflexivity].
Defined.

Lemma fresh_request_returns : ∃ r st', fresh_request = (Return r, st').
Proof.
  apply (@create_runs iso_dates june_15 fresh_id "Picnic" "2024-09-30"
           (Some "mrivera") (Some "2024-09-01") sample_db
           (datetime.midnight (date.Date 2024 9 30))).
  - exact sample_authorized.
  - reflexivity.
  - intros s [= <-]. exists (datetime.midnight (date.Date 2024 9 1)).
    split; [reflexivity|]. vm_compute. lia.
  - by vm_compute.
Defined.

Lemma reword_request_returns : ∃ r st', reword_request = (Return r, st').
Proof.
  apply (@update_runs iso_dates hex_ids "616161616161616161616131"
           (Some "Science fair, gym B") None (Some "mrivera") None sample_db
           (Oid "aaaaaaaaaaa1") ann_current).
  - exact sample_authorized.
  - reflexivity.
  - intros e [=].
  - intros s [=].
  - left. by eexists.
  - right. left.
  - reflexivity.
Defined.

Lemma withdraw_request_returns : ∃ r st', withdraw_request = (Return r, st').
Proof.
  apply (@delete_runs hex_ids "616161616161616161616131" (Some "mrivera")
           sample_db (Oid "aaaaaaaaaaa1") ann_current).
  - exact sample_authorized.
  - reflexivity.
  - right. left.
  - reflexivity.
Defined.

Lemma reachable_invariant_witness :
  unique_ids (announcements_collection first_request.2) ∧
  Forall written_by_service (announcements_collection first_request.2).
Proof.
  apply (@reachable_invariant iso_dates hex_ids).
  apply (@reachable_create iso_dates hex_ids (Db [] [teacher "mrivera"])),
    reachable_empty.
Defined.

Lemma delete_twice_not_found_witness :
  ∃ r st', withdraw_request = (Return r, st') ∧
    (∀ oid d, parse_hex24 "616161616161616161616131" = Some oid →
       d ∈ announcements_collection st' → d !! "_id" ≠ Some (VObjectId oid)) ∧
    ∃ e, @delete_announcement hex_ids "616161616161616161616131"
           (Some "mrivera") st' = (Raise e, st') ∧ NotFound e.
Proof.
  destruct withdraw_request_returns as (r & st' & Hrun).
  exists r, st'. split; [exact Hrun|].
  apply (@delete_twice_not_found hex_ids "616161616161616161616131"
           (Some "mrivera") sample_db st' r); [|exact Hrun].
  unfold unique_ids. apply (bool_decide_unpack _). by vm_compute.
Defined.

Lemma create_then_delete_witness :
  ∃ r st', fresh_request = (Return r, st') ∧
    ∃ r', @delete_announcement hex_ids fresh_hex (Some "mrivera") st'
          = (Return r', sample_db).
Proof.
  destruct fresh_request_returns as (r & st' & Hrun).
  exists r, st'. split; [exact Hrun|].
  apply (@create_then_delete iso_dates hex_ids june_15 fresh_id "Picnic"
           "2024-09-30" fresh_hex (Some "mrivera") (Some "2024-09-01")
           sample_db st' r); [reflexivity|exact Hrun].
Defined.

Lemma update_idempotent_witness :
  ∃ r st', reword_request = (Return r, st') ∧
    @update_announcement iso_dates hex_ids "616161616161616161616131"
      (Some "Science fair, gym B") None (Some "mrivera") None st'
    = (Return r, st').
Proof.
  destruct reword_request_returns as (r & st' & Hrun).
  exists r, st'. split; [exact Hrun|].
  apply (@update_idempotent iso_dates hex_ids "616161616161616161616131"
           (Some "Science fair, gym B") None (Some "mrivera") None sample_db),
    Hrun.
Defined.

Lemma update_listed_witness :
  ∃ r st', reword_request = (Return r, st') ∧
    ∃ out, list_announcements st' = (Return out, st') ∧ r ∈ out.
Proof.
  destruct reword_request_returns as (r & st' & Hrun).
  exists r, st'. split; [exact Hrun|].
  apply (@update_listed iso_dates hex_ids "616161616161616161616131"
           (Some "Science fair, gym B") None (Some "mrivera") None sample_db),
    Hrun.
Defined.


Lemma created_announcement_active_witness :
  ∃ r st', fresh_request = (Return r, st') ∧
  ∃ (d : doc) out,
    announcements_collection st' = announcements_collection sample_db ++ [d] ∧
    @active_announcements iso_dates june_15 st' = (Return out, st') ∧
    (_to_dict d ∈ out ↔
       (∀ s start_dt, Some "2024-09-01" = Some s → parse_ymd s = Some start_dt →
          date.le (datetime.date start_dt) (datetime.date june_15)) ∧
       date.le (datetime.date june_15) (date.Date 2024 9 30)).
Proof.
  destruct fresh_request_returns as (r & st' & Hrun).
  exists r, st'. split; [exact Hrun|].
  apply (@created_announcement_active iso_dates june_15 june_15 fresh_id
           "Picnic" "2024-09-30" (Some "mrivera") (Some "2024-09-01")
           sample_db st' r (datetime.midnight (date.Date 2024 9 30)) Hrun).
  - reflexivity.
  - by vm_compute.
Defined.
